(** * sqlboiler: schema introspection core and MySQL driver

    A shallow embedding of [core/boilingcore.go] and [db/drivers/mysql.go].
    Pure functions ([TranslateColumnType], [checkPKeys]) are Rocq functions;
    the stateful code ([Open], [Close], [TableNames], [openFile], [Run], ...)
    threads an explicit world (database server, file system, call log).
    Go's [error] is [option error] ([None] is [nil]); a nil pointer is
    [None]; a Go panic is an outcome of its own. *)

From Stdlib Require Import ZArith String Ascii List Bool Lia DecimalString.
From stdpp Require Import gmap strings list fin_maps.

Import ListNotations.
Local Open Scope Z_scope.
Local Open Scope string_scope.
Local Open Scope list_scope.
Local Open Scope stdpp_scope.

(** ** Errors *)

(** Failures reported by [database/sql] and the MySQL server. *)
Inductive sql_failure :=
| UnknownDriver
| InvalidDSN
| ConnectionRefused
| AccessDenied
| SyntaxError
| WrongArgCount
| DatabaseClosed.

(** Failures reported by the operating system on a path. *)
Inductive errno := EEXIST | EACCES | ENOENT | ENOTDIR.

(** Go [error] values: those made by [github.com/pkg/errors] in the source
    ([errors.New], [errors.Errorf], [errors.Wrap]) and those coming from the
    libraries underneath. *)
Inductive error :=
| errors_New (msg : string)
| errors_Wrap (cause : error) (msg : string)
| sql_error (f : sql_failure)
| os_error (e : errno) (path : string).

(** A call either returns a value or an error. *)
Inductive result (A : Type) :=
| Ok (a : A)
| Err (e : error).
Arguments Ok {A} a.
Arguments Err {A} e.

(** ** Package db: the canonical model *)

Module Column.
(** Modelled from the spec: [db.Column] is declared in package db; the
    fields are the ones [mysql.go] reads and writes. *)
Record t := mk {
  Name : string;
  FullDBType : string;
  DBType : string;
  Default : string;
  Nullable : bool;
  Unsigned : bool;
  Unique : bool;
  PkgName : string;
  TypeName : string
}.

Definition setPkgName (p : string) (c : t) : t :=
  mk (Name c) (FullDBType c) (DBType c) (Default c)
     (Nullable c) (Unsigned c) (Unique c) p (TypeName c).

Definition setTypeName (n : string) (c : t) : t :=
  mk (Name c) (FullDBType c) (DBType c) (Default c)
     (Nullable c) (Unsigned c) (Unique c) (PkgName c) n.
End Column.

Module PrimaryKey.
(** Modelled from the spec: [db.PrimaryKey], constraint name and ordered
    column names. *)
Record t := mk {
  Name : string;
  Columns : list string
}.
End PrimaryKey.

Module ForeignKey.
(** Modelled from the spec: [db.ForeignKey], one single-column
    relationship. *)
Record t := mk {
  Name : string;
  Table : string;
  Column : string;
  ForeignTable : string;
  ForeignColumn : string
}.
End ForeignKey.

Module Table.
(** Modelled from the spec: [db.Table]. [PKey] is a pointer in the source
    ([t.PKey == nil]), hence an option. *)
Record t := mk {
  Name : string;
  Columns : list Column.t;
  PKey : option PrimaryKey.t;
  FKeys : list ForeignKey.t;
  IsJoinTable : bool
}.
End Table.

(** ** Package strings, as far as the source uses it *)

(** [strings.Repeat]. *)
Fixpoint strings_Repeat (s : string) (count : nat) : string :=
  match count with
  | O => ""
  | S n => s +:+ strings_Repeat s n
  end.

(** [strings.Join]. *)
Fixpoint strings_Join (elems : list string) (sep : string) : string :=
  match elems with
  | [] => ""
  | [x] => x
  | x :: rest => x +:+ sep +:+ strings_Join rest sep
  end.

(** The slice expression [s[1:]], on a non-empty string. *)
Definition slice_from1 (s : string) : string :=
  match s with
  | EmptyString => ""
  | String _ rest => rest
  end.

(** ** Package drivers: the MySQL driver *)

(** A [case "a", "b":] arm of a Go string switch. *)
Definition case_of (s : string) (labels : list string) : bool :=
  existsb (String.eqb s) labels.

Module drivers.

Definition null_v6 : string := "gopkg.in/nullbio/null.v6".
Definition sqlboiler_types : string := "github.com/vattle/sqlboiler/types".

(** [TranslateColumnType] reads the package-level variable
    [TinyintAsBool]; here it is the first argument. *)
Definition TranslateColumnType (TinyintAsBool : bool) (c : Column.t) : Column.t :=
  let pkg := Column.setPkgName in
  let ty := Column.setTypeName in
  if Column.Nullable c then
    if case_of (Column.DBType c) ["tinyint"] then
      if TinyintAsBool && String.eqb (Column.FullDBType c) "tinyint(1)" then
        ty "Bool" (pkg null_v6 c)
      else if Column.Unsigned c then ty "Uint8" (pkg null_v6 c)
      else ty "Int8" (pkg null_v6 c)
    else if case_of (Column.DBType c) ["smallint"] then
      if Column.Unsigned c then ty "Uint16" (pkg null_v6 c)
      else ty "Int16" (pkg null_v6 c)
    else if case_of (Column.DBType c) ["mediumint"] then
      if Column.Unsigned c then ty "Uint32" (pkg null_v6 c)
      else ty "Int32" (pkg null_v6 c)
    else if case_of (Column.DBType c) ["int"; "integer"] then
      if Column.Unsigned c then ty "Uint" (pkg null_v6 c)
      else ty "Int" (pkg null_v6 c)
    else if case_of (Column.DBType c) ["bigint"] then
      if Column.Unsigned c then ty "Uint64" (pkg null_v6 c)
      else ty "Int64" (pkg null_v6 c)
    else if case_of (Column.DBType c) ["float"] then
      ty "Float32" (pkg null_v6 c)
    else if case_of (Column.DBType c) ["double"; "double precision"; "real"] then
      ty "Float64" (pkg null_v6 c)
    else if case_of (Column.DBType c) ["boolean"; "bool"] then
      ty "Bool" (pkg null_v6 c)
    else if case_of (Column.DBType c) ["date"; "datetime"; "timestamp"; "time"] then
      ty "Time" (pkg null_v6 c)
    else if case_of (Column.DBType c)
              ["binary"; "varbinary"; "tinyblob"; "blob"; "mediumblob"; "longblob"] then
      ty "Bytes" (pkg null_v6 c)
    else if case_of (Column.DBType c) ["json"] then
      ty "JSON" (pkg sqlboiler_types c)
    else
      ty "String" (pkg null_v6 c)
  else
    if case_of (Column.DBType c) ["tinyint"] then
      if TinyintAsBool && String.eqb (Column.FullDBType c) "tinyint(1)" then
        ty "bool" c
      else if Column.Unsigned c then ty "uint8" c
      else ty "int8" c
    else if case_of (Column.DBType c) ["smallint"] then
      if Column.Unsigned c then ty "uint16" c else ty "int16" c
    else if case_of (Column.DBType c) ["mediumint"] then
      if Column.Unsigned c then ty "uint32" c else ty "int32" c
    else if case_of (Column.DBType c) ["int"; "integer"] then
      if Column.Unsigned c then ty "uint" c else ty "int" c
    else if case_of (Column.DBType c) ["bigint"] then
      if Column.Unsigned c then ty "uint64" c else ty "int64" c
    else if case_of (Column.DBType c) ["float"] then
      ty "float32" c
    else if case_of (Column.DBType c) ["double"; "double precision"; "real"] then
      ty "float64" c
    else if case_of (Column.DBType c) ["boolean"; "bool"] then
      ty "bool" c
    else if case_of (Column.DBType c) ["date"; "datetime"; "timestamp"; "time"] then
      ty "Time" (pkg "time" c)
    else if case_of (Column.DBType c)
              ["binary"; "varbinary"; "tinyblob"; "blob"; "mediumblob"; "longblob"] then
      ty "[]byte" c
    else if case_of (Column.DBType c) ["json"] then
      ty "JSON" (pkg sqlboiler_types c)
    else
      ty "string" c.

(** The raw type names some arm of the switch recognises. *)
Definition recognized : list string :=
  ["tinyint"; "smallint"; "mediumint"; "int"; "integer"; "bigint"; "float";
   "double"; "double precision"; "real"; "boolean"; "bool";
   "date"; "datetime"; "timestamp"; "time";
   "binary"; "varbinary"; "tinyblob"; "blob"; "mediumblob"; "longblob"; "json"].

End drivers.

(** ** The database underneath the driver

    [database/sql] and the MySQL server are outside the repository. The
    model keeps what the driver observes of them: [sql.Open] checks its
    arguments and hands out a handle without contacting the server (the
    package documents that a connection is only established when first
    needed); a query through the handle is where the server is reached,
    authenticates, and answers the text of the statement from its
    catalog. *)

Module sql.

(** One row of [information_schema.tables]. *)
Record table_row := mk_row {
  table_schema : string;
  table_name : string;
  table_type : string
}.

Record Server := mk_server {
  reachable : bool;
  accepts_credentials : bool;
  information_schema_tables : list table_row
}.

Record Env := mk_env {
  registered : list string;      (* driver names known to database/sql *)
  valid_dsn : string -> bool;    (* data source names the driver can parse *)
  server : Server
}.

(** The handle type [sql.DB]: a pool handle. *)
Record DB := mk_db {
  dataSourceName : string;
  closed : bool
}.

Definition Open (env : Env) (driverName dataSourceName : string) : result DB :=
  if negb (case_of driverName (registered env)) then Err (sql_error UnknownDriver)
  else if negb (valid_dsn env dataSourceName) then Err (sql_error InvalidDSN)
  else Ok (mk_db dataSourceName false).

Definition Close (d : DB) : DB := mk_db (dataSourceName d) true.

(** The text of the one statement [TableNames] starts from. *)
Definition select_base_tables : string :=
  "select table_name from information_schema.tables where table_schema = ? and table_type = 'BASE TABLE'".

Definition in_clause (n : nat) : string :=
  " and table_name in (" +:+ slice_from1 (strings_Repeat ",?" n) +:+ ");".

Definition not_in_clause (n : nat) : string :=
  " and table_name not in (" +:+ slice_from1 (strings_Repeat ",?" n) +:+ ");".

Definition is_base_table_of (schema : string) (r : table_row) : bool :=
  String.eqb (table_schema r) schema && String.eqb (table_type r) "BASE TABLE".

(** The names of the base tables of a schema, in catalog order. *)
Definition base_tables (srv : Server) (schema : string) : list string :=
  map table_name (List.filter (is_base_table_of schema) (information_schema_tables srv)).

(** *** The statement the server receives

    The server knows nothing of how the driver put its statement together:
    it reads the text. The text is cut into tokens, the tokens are read as
    [select column from table where condition and ... ;] with conditions
    [column = ?], [column = 'text'], [column in (?, ...)] and
    [column not in (?, ...)], the placeholders are bound to the arguments
    in order, and the rows of the table that pass every condition give the
    answer, in catalog order. Strings are compared exactly. A text that does
    not read this way is a syntax error. *)

Inductive token :=
| t_word (w : string)
| t_text (s : string)
| t_param
| t_comma
| t_open
| t_close
| t_equal
| t_end
| t_other (c : ascii).

(** Where the tokenizer is: between tokens, inside a word, inside a quoted
    text. *)
Inductive lexing :=
| between
| in_word (w : string)
| in_text (s : string).

Definition is_word_char (c : ascii) : bool :=
  let n := nat_of_ascii c in
  (Nat.leb 97 n && Nat.leb n 122) || (Nat.leb 65 n && Nat.leb n 90)
  || (Nat.leb 48 n && Nat.leb n 57) || Nat.eqb n 95 || Nat.eqb n 46.

Definition is_blank (c : ascii) : bool :=
  let n := nat_of_ascii c in
  Nat.eqb n 32 || Nat.eqb n 9 || Nat.eqb n 10 || Nat.eqb n 13.

Definition punctuation (c : ascii) : token :=
  if Ascii.eqb c "?" then t_param
  else if Ascii.eqb c "," then t_comma
  else if Ascii.eqb c "(" then t_open
  else if Ascii.eqb c ")" then t_close
  else if Ascii.eqb c "=" then t_equal
  else if Ascii.eqb c ";" then t_end
  else t_other c.

(** The word that ends when something else than a word character comes. *)
Definition pending (st : lexing) : list token :=
  match st with
  | in_word w => [t_word w]
  | _ => []
  end.

Definition lex_step (st : lexing) (c : ascii) : lexing * list token :=
  match st with
  | in_text s =>
      if Ascii.eqb c "'" then (between, [t_text s])
      else (in_text (s +:+ String c ""), [])
  | _ =>
      if is_word_char c then
        (in_word (match st with in_word w => w | _ => "" end +:+ String c ""), [])
      else if is_blank c then (between, pending st)
      else if Ascii.eqb c "'" then (in_text "", pending st)
      else (between, pending st ++ [punctuation c])
  end.

(** At the end of the text a word ends too; a quoted text left open is no
    token. *)
Definition lex_end (st : lexing) : list token :=
  match st with
  | between => []
  | in_word w => [t_word w]
  | in_text _ => [t_other "'"]
  end.

Fixpoint lex (st : lexing) (s : string) : list token :=
  match s with
  | EmptyString => lex_end st
  | String c rest =>
      let step := lex_step st c in
      snd step ++ lex (fst step) rest
  end.

Inductive condition :=
| equals_param (column : string)
| equals_text (column text : string)
| in_params (column : string) (negated : bool) (count : nat).

Record statement := mk_statement {
  target : string;
  source : string;
  conditions : list condition
}.

Definition with_condition (q : statement) (c : condition) : statement :=
  mk_statement (target q) (source q) (conditions q ++ [c]).

Definition is_keyword (w : string) : bool :=
  case_of w ["select"; "from"; "where"; "and"; "in"; "not"].

(** What the reader of the tokens expects next. *)
Inductive parsing :=
| want_select
| want_target
| want_from (column : string)
| want_source (column : string)
| want_where (q : statement)
| want_column (q : statement)
| want_operator (q : statement) (column : string)
| want_in (q : statement) (column : string)
| want_value (q : statement) (column : string)
| want_open (q : statement) (column : string) (negated : bool)
| want_param (q : statement) (column : string) (negated : bool) (count : nat)
| want_more (q : statement) (column : string) (negated : bool) (count : nat)
| want_and (q : statement)
| want_nothing (q : statement).

Definition parse_step (st : parsing) (t : token) : option parsing :=
  match st, t with
  | want_select, t_word w =>
      if String.eqb w "select" then Some want_target else None
  | want_target, t_word w =>
      if is_keyword w then None else Some (want_from w)
  | want_from column, t_word w =>
      if String.eqb w "from" then Some (want_source column) else None
  | want_source column, t_word w =>
      if is_keyword w then None else Some (want_where (mk_statement column w []))
  | want_where q, t_word w =>
      if String.eqb w "where" then Some (want_column q) else None
  | want_where q, t_end => Some (want_nothing q)
  | want_column q, t_word w =>
      if is_keyword w then None else Some (want_operator q w)
  | want_operator q column, t_equal => Some (want_value q column)
  | want_operator q column, t_word w =>
      if String.eqb w "in" then Some (want_open q column false)
      else if String.eqb w "not" then Some (want_in q column)
      else None
  | want_in q column, t_word w =>
      if String.eqb w "in" then Some (want_open q column true) else None
  | want_value q column, t_param =>
      Some (want_and (with_condition q (equals_param column)))
  | want_value q column, t_text s =>
      Some (want_and (with_condition q (equals_text column s)))
  | want_open q column negated, t_open => Some (want_param q column negated 0)
  | want_param q column negated count, t_param =>
      Some (want_more q column negated (S count))
  | want_more q column negated count, t_comma =>
      Some (want_param q column negated count)
  | want_more q column negated count, t_close =>
      Some (want_and (with_condition q (in_params column negated count)))
  | want_and q, t_word w =>
      if String.eqb w "and" then Some (want_column q) else None
  | want_and q, t_end => Some (want_nothing q)
  | _, _ => None
  end.

Definition parse_end (st : parsing) : option statement :=
  match st with
  | want_where q | want_and q | want_nothing q => Some q
  | _ => None
  end.

Fixpoint parse (st : parsing) (tokens : list token) : option statement :=
  match tokens with
  | [] => parse_end st
  | t :: rest =>
      match parse_step st t with
      | Some st' => parse st' rest
      | None => None
      end
  end.

(** The columns of [information_schema.tables] a statement may name. *)
Definition tables_columns : list string :=
  ["table_schema"; "table_name"; "table_type"].

Definition field (r : table_row) (column : string) : string :=
  if String.eqb column "table_schema" then table_schema r
  else if String.eqb column "table_name" then table_name r
  else table_type r.

Definition column_of (c : condition) : string :=
  match c with
  | equals_param column => column
  | equals_text column _ => column
  | in_params column _ _ => column
  end.

(** The statement reads the table that is there and names its columns. *)
Definition well_named (q : statement) : bool :=
  String.eqb (source q) "information_schema.tables"
  && case_of (target q) tables_columns
  && forallb (fun c => case_of (column_of c) tables_columns) (conditions q).

(** A condition with its placeholders bound. *)
Inductive test :=
| is_value (column value : string)
| is_among (column : string) (negated : bool) (values : list string).

(** Placeholders take the arguments in order; every argument must be used. *)
Fixpoint bind (conds : list condition) (args : list string) : option (list test) :=
  match conds with
  | [] =>
      match args with
      | [] => Some []
      | _ :: _ => None
      end
  | equals_param column :: rest =>
      match args with
      | [] => None
      | a :: args' =>
          match bind rest args' with
          | Some tests => Some (is_value column a :: tests)
          | None => None
          end
      end
  | equals_text column text :: rest =>
      match bind rest args with
      | Some tests => Some (is_value column text :: tests)
      | None => None
      end
  | in_params column negated count :: rest =>
      if Nat.ltb (List.length args) count then None
      else
        match bind rest (skipn count args) with
        | Some tests => Some (is_among column negated (firstn count args) :: tests)
        | None => None
        end
  end.

Definition passes (r : table_row) (t : test) : bool :=
  match t with
  | is_value column value => String.eqb (field r column) value
  | is_among column negated values => xorb negated (case_of (field r column) values)
  end.

Definition answer (srv : Server) (query : string) (args : list string)
  : result (list string) :=
  match parse want_select (lex between query) with
  | None => Err (sql_error SyntaxError)
  | Some q =>
      if negb (well_named q) then Err (sql_error SyntaxError)
      else
        match bind (conditions q) args with
        | None => Err (sql_error WrongArgCount)
        | Some tests =>
            Ok (map (fun r => field r (target q))
                    (List.filter (fun r => forallb (passes r) tests)
                                 (information_schema_tables srv)))
        end
  end.

(** The [Query] method of the handle, followed by reading every row into a
    string. *)
Definition Query (env : Env) (d : DB) (query : string) (args : list string)
  : result (list string) :=
  if closed d then Err (sql_error DatabaseClosed)
  else if negb (reachable (server env)) then Err (sql_error ConnectionRefused)
  else if negb (accepts_credentials (server env)) then Err (sql_error AccessDenied)
  else answer (server env) query args.

(** What every statement goes through before the server answers it: the
    handle must be open, the server reachable and the credentials accepted
    (the same tests as in [Query]). *)
Definition connect (env : Env) (d : DB) : option error :=
  if closed d then Some (sql_error DatabaseClosed)
  else if negb (reachable (server env)) then Some (sql_error ConnectionRefused)
  else if negb (accepts_credentials (server env)) then Some (sql_error AccessDenied)
  else None.

End sql.

(** ** The catalog behind [Columns], [PrimaryKeyInfo] and [ForeignKeyInfo]

    The three statements of the driver read [information_schema.columns],
    [information_schema.table_constraints] and
    [information_schema.key_column_usage]. Their rows carry the fields the
    statements mention; a field that can be NULL is an option. Each
    statement is rendered as the list comprehension it denotes: [=]
    compares strings exactly and is false on NULL, rows come in catalog
    order. *)

Module information_schema.

Record column_row := mk_column {
  c_table_schema : string;
  c_table_name : string;
  column_name : string;
  column_type : string;
  data_type : string;
  column_default : option string;
  is_nullable : string;
  extra : string
}.

Record constraint_row := mk_constraint {
  tc_constraint_name : string;
  tc_table_schema : string;
  tc_table_name : string;
  constraint_type : string
}.

Record key_usage_row := mk_key_usage {
  kcu_constraint_name : string;
  kcu_table_schema : string;
  kcu_table_name : string;
  kcu_column_name : string;
  referenced_table_schema : option string;
  referenced_table_name : option string;
  referenced_column_name : option string
}.

Record Catalog := mk_catalog {
  columns : list column_row;
  table_constraints : list constraint_row;
  key_column_usage : list key_usage_row
}.

(** [s LIKE '% unsigned']: [s] ends with a blank followed by unsigned,
    compared exactly like [=]. *)
Definition like_unsigned (s : string) : bool :=
  let suffix := " unsigned" in
  (String.length suffix <=? String.length s)%nat
  && String.eqb (String.substring (String.length s - String.length suffix)
                                  (String.length suffix) s) suffix.

(** A nullable field compared with a value. *)
Definition null_eqb (o : option string) (s : string) : bool :=
  match o with
  | Some x => String.eqb x s
  | None => false
  end.

(** The inner [select count( * ) from key_column_usage]: how many columns
    the constraint [tc], seen through the joined row [kcu], spans. *)
Definition count_key_columns (cat : Catalog) (tc : constraint_row) (kcu : key_usage_row)
  : nat :=
  List.length
    (List.filter
       (fun k => String.eqb (kcu_table_schema k) (kcu_table_schema kcu)
                 && String.eqb (kcu_table_name k) (tc_table_name tc)
                 && String.eqb (kcu_constraint_name k) (tc_constraint_name tc))
       (key_column_usage cat)).

(** The condition under [exists] for one pair of joined rows. *)
Definition unique_through (cat : Catalog) (c : column_row)
           (tc : constraint_row) (kcu : key_usage_row) : bool :=
  (String.eqb (tc_constraint_name tc) (kcu_constraint_name kcu)
   && String.eqb (tc_table_name tc) (kcu_table_name kcu)
   && String.eqb (tc_table_schema tc) (kcu_table_schema kcu))
  && String.eqb (column_name c) (kcu_column_name kcu)
  && String.eqb (tc_table_name tc) (c_table_name c)
  && (String.eqb (constraint_type tc) "PRIMARY KEY"
      || String.eqb (constraint_type tc) "UNIQUE")
  && Nat.eqb (count_key_columns cat tc kcu) 1.

(** The [exists ( ... ) as is_unique] column of the statement. *)
Definition is_unique (cat : Catalog) (c : column_row) : bool :=
  existsb (fun tc => existsb (unique_through cat c tc) (key_column_usage cat))
          (table_constraints cat).

(** One row of the answer to the statement of [Columns], in select order. *)
Record columns_answer := mk_columns_answer {
  a_column_name : string;
  a_column_type : string;
  a_type : string;
  a_default : option string;
  a_nullable : bool;
  a_unsigned : bool;
  a_unique : bool
}.

Definition select_columns (cat : Catalog) (tableName schema : string)
  : list columns_answer :=
  map (fun c =>
         mk_columns_answer
           (column_name c)
           (column_type c)
           (if String.eqb (data_type c) "enum" then column_type c else data_type c)
           (if String.eqb (extra c) "auto_increment" then Some "auto_increment"
            else column_default c)
           (String.eqb (is_nullable c) "YES")
           (like_unsigned (column_type c))
           (is_unique cat c))
      (List.filter
         (fun c => String.eqb (c_table_name c) tableName
                   && String.eqb (c_table_schema c) schema)
         (columns cat)).

(** The first statement of [PrimaryKeyInfo]. *)
Definition select_primary_key (cat : Catalog) (tableName schema : string) : list string :=
  map tc_constraint_name
      (List.filter
         (fun tc => String.eqb (tc_table_name tc) tableName
                    && String.eqb (constraint_type tc) "PRIMARY KEY"
                    && String.eqb (tc_table_schema tc) schema)
         (table_constraints cat)).

(** The second statement of [PrimaryKeyInfo]. *)
Definition select_key_columns (cat : Catalog) (tableName constraintName schema : string)
  : list string :=
  map kcu_column_name
      (List.filter
         (fun k => String.eqb (kcu_table_name k) tableName
                   && String.eqb (kcu_constraint_name k) constraintName
                   && String.eqb (kcu_table_schema k) schema)
         (key_column_usage cat)).

(** The statement of [ForeignKeyInfo]; both placeholders for the schema are
    bound to the same value. *)
Definition select_foreign_keys (cat : Catalog) (schema referencedSchema tableName : string)
  : list key_usage_row :=
  List.filter
    (fun k => String.eqb (kcu_table_schema k) schema
              && null_eqb (referenced_table_schema k) referencedSchema
              && String.eqb (kcu_table_name k) tableName)
    (key_column_usage cat).

End information_schema.

(** [strconv.Itoa]. *)
Definition strconv_Itoa (n : Z) : string := NilZero.string_of_int (Z.to_int n).

Module mysql.
(** The fields of [mysql.Config] that [MySQLBuildQueryString] sets. *)
Record Config := mk_config {
  User : string;
  Passwd : string;
  Net : string;
  Addr : string;
  DBName : string;
  TLSConfig : string;
  ParseTime : bool
}.
End mysql.

(** A Go call either returns or panics. *)
Inductive panic :=
| nil_dereference
| panic_error (e : error).

Inductive outcome (A : Type) :=
| Returned (a : A)
| Panicked (p : panic).
Arguments Returned {A} a.
Arguments Panicked {A} p.

(** [db.Interface], the methods that [Run], [Cleanup] and table discovery
    call. *)
Class Interface (D : Type) := {
  Open : sql.Env -> D -> D * option error;
  Close : D -> outcome D;
  TableNames : sql.Env -> D -> string -> list string -> list string
               -> outcome (result (list string))
}.

Module MySQLDriver.

Record t := mk {
  connStr : string;
  dbConn : option sql.DB     (* pointer to [sql.DB], nil until [Open] succeeds *)
}.

(** [m.dbConn, err = sql.Open("mysql", m.connStr)]: on failure [sql.Open]
    returns a nil handle, and the assignment stores it. *)
Definition Open (env : sql.Env) (m : t) : t * option error :=
  match sql.Open env "mysql" (connStr m) with
  | Ok d => (mk (connStr m) (Some d), None)
  | Err e => (mk (connStr m) None, Some e)
  end.

(** [m.dbConn.Close()]: the method locks a field of its receiver, so a nil
    handle is a nil dereference. *)
Definition Close (m : t) : outcome t :=
  match dbConn m with
  | Some d => Returned (mk (connStr m) (Some (sql.Close d)))
  | None => Panicked nil_dereference
  end.

(** The statement and arguments [TableNames] builds. *)
Definition tableNamesQuery (schema : string) (whitelist blacklist : list string)
  : string * list string :=
  let query := sql.select_base_tables in
  let args := [schema] in
  if (0 <? List.length whitelist)%nat then
    (query +:+ sql.in_clause (List.length whitelist), args ++ whitelist)
  else if (0 <? List.length blacklist)%nat then
    (query +:+ sql.not_in_clause (List.length blacklist), args ++ blacklist)
  else (query, args).

Definition TableNames (env : sql.Env) (m : t) (schema : string)
           (whitelist blacklist : list string) : outcome (result (list string)) :=
  let '(query, args) := tableNamesQuery schema whitelist blacklist in
  match dbConn m with
  | None => Panicked nil_dereference
  | Some d =>
      match sql.Query env d query args with
      | Err e => Returned (Err e)
      | Ok rows => Returned (Ok rows)
      end
  end.

(** The handle is there, open, and the server lets the driver in. *)
Definition usable (env : sql.Env) (m : t) : bool :=
  match dbConn m with
  | Some d =>
      negb (sql.closed d) && sql.reachable (sql.server env)
      && sql.accepts_credentials (sql.server env)
  | None => false
  end.

(** [MySQLBuildQueryString] up to the call of [FormatDSN]: the configuration
    it fills in. Assigning the password only when it is not empty leaves the
    zero value, the empty string, otherwise. *)
Definition buildConfig (user pass dbname host : string) (port : Z) (sslmode : string)
  : mysql.Config :=
  let port := if Z.eqb port 0 then 3306 else port in
  mysql.mk_config user
                  (if negb (Nat.eqb (String.length pass) 0) then pass else "")
                  "tcp"
                  (host +:+ ":" +:+ strconv_Itoa port)
                  dbname
                  sslmode
                  true.

Section DSN.
(** [FormatDSN] of the MySQL client library, taken as given. *)
Variable FormatDSN : mysql.Config -> string.

Definition MySQLBuildQueryString (user pass dbname host : string) (port : Z)
           (sslmode : string) : string :=
  FormatDSN (buildConfig user pass dbname host port sslmode).

Definition NewMySQLDriver (user pass dbname host : string) (port : Z)
           (sslmode : string) : t :=
  mk (MySQLBuildQueryString user pass dbname host port sslmode) None.
End DSN.

(** The loop of [Columns] on one row: the default is kept unless it is NULL
    or the text NULL; type name and package are left at their zero value. *)
Definition scanColumn (r : information_schema.columns_answer) : Column.t :=
  Column.mk (information_schema.a_column_name r)
            (information_schema.a_column_type r)
            (information_schema.a_type r)
            (match information_schema.a_default r with
             | Some v => if negb (String.eqb v "NULL") then v else ""
             | None => ""
             end)
            (information_schema.a_nullable r)
            (information_schema.a_unsigned r)
            (information_schema.a_unique r)
            "" "".

Definition Columns (env : sql.Env) (cat : information_schema.Catalog) (m : t)
           (schema tableName : string) : outcome (result (list Column.t)) :=
  match dbConn m with
  | None => Panicked nil_dereference
  | Some d =>
      match sql.connect env d with
      | Some err => Returned (Err err)
      | None =>
          Returned (Ok (map scanColumn
                            (information_schema.select_columns cat tableName schema)))
      end
  end.

(** [PrimaryKeyInfo]: [QueryRow] and [Scan] give the first row or
    [sql.ErrNoRows]; no row is the nil key with a nil error. *)
Definition PrimaryKeyInfo (env : sql.Env) (cat : information_schema.Catalog) (m : t)
           (schema tableName : string) : outcome (result (option PrimaryKey.t)) :=
  match dbConn m with
  | None => Panicked nil_dereference
  | Some d =>
      match sql.connect env d with
      | Some err => Returned (Err err)
      | None =>
          match information_schema.select_primary_key cat tableName schema with
          | [] => Returned (Ok None)
          | name :: _ =>
              match sql.connect env d with
              | Some err => Returned (Err err)
              | None =>
                  Returned
                    (Ok (Some (PrimaryKey.mk
                                 name
                                 (information_schema.select_key_columns
                                    cat tableName name schema))))
              end
          end
      end
  end.

Definition scan_null : error :=
  errors_New "sql: Scan error: converting NULL to string is unsupported".

(** [rows.Scan] into the fields of a foreign key: a NULL cannot be stored in
    a string. The scanned table name goes to a local that is not used;
    [fkey.Table] is the argument. *)
Definition scanForeignKey (tableName : string) (k : information_schema.key_usage_row)
  : result ForeignKey.t :=
  match information_schema.referenced_table_name k,
        information_schema.referenced_column_name k with
  | Some ftable, Some fcolumn =>
      Ok (ForeignKey.mk (information_schema.kcu_constraint_name k)
                        tableName
                        (information_schema.kcu_column_name k)
                        ftable fcolumn)
  | _, _ => Err scan_null
  end.

(** The loop of [ForeignKeyInfo]: append each scanned key, return at the
    first scan error. *)
Fixpoint scanForeignKeys (tableName : string) (rows : list information_schema.key_usage_row)
         (fkeys : list ForeignKey.t) : result (list ForeignKey.t) :=
  match rows with
  | [] => Ok fkeys
  | k :: rest =>
      match scanForeignKey tableName k with
      | Err err => Err err
      | Ok fkey => scanForeignKeys tableName rest (fkeys ++ [fkey])
      end
  end.

Definition ForeignKeyInfo (env : sql.Env) (cat : information_schema.Catalog) (m : t)
           (schema tableName : string) : outcome (result (list ForeignKey.t)) :=
  match dbConn m with
  | None => Panicked nil_dereference
  | Some d =>
      match sql.connect env d with
      | Some err => Returned (Err err)
      | None =>
          Returned (scanForeignKeys
                      tableName
                      (information_schema.select_foreign_keys cat schema schema tableName)
                      [])
      end
  end.

End MySQLDriver.

#[export] Instance MySQLDriver_Interface : Interface MySQLDriver.t := {
  Open := MySQLDriver.Open;
  Close := MySQLDriver.Close;
  TableNames := MySQLDriver.TableNames
}.

(** ** The file system underneath the generator

    Package [os] is outside the repository as well. Regular files are a map
    from path to permission bits and contents; directories are implicit.
    Paths are plain relative paths, elements separated by single
    separators, and the files belong to the user the generator runs as.
    [OpenFile] follows open(2) for the flags it is given. *)

Module os.

Record File := mk_file {
  mode : Z;
  contents : string
}.

Record FS := mk_fs {
  files : gmap string File;
  umask : Z;
  superuser : bool
}.

Definition O_WRONLY : Z := 1.
Definition O_RDWR : Z := 2.
Definition O_CREATE : Z := 64.
Definition O_EXCL : Z := 128.
Definition O_TRUNC : Z := 512.
Definition ModePerm : Z := 511.      (* 0777 *)

Definition has (flag bit : Z) : bool := negb (Z.eqb (Z.land flag bit) 0).

(** The owner's write bit (0200), which the superuser does not need. *)
Definition may_write (fs : FS) (f : File) : bool :=
  superuser fs || Z.testbit (mode f) 7.

Definition with_files (fs : FS) (m : gmap string File) : FS :=
  mk_fs m (umask fs) (superuser fs).

(** A successful call hands back a descriptor, here the path it is on. *)
Definition OpenFile (fs : FS) (name : string) (flag perm : Z) : FS * result string :=
  match files fs !! name with
  | Some f =>
      if has flag O_CREATE && has flag O_EXCL then
        (fs, Err (os_error EEXIST name))
      else if (has flag O_WRONLY || has flag O_RDWR) && negb (may_write fs f) then
        (fs, Err (os_error EACCES name))
      else if has flag O_TRUNC then
        (with_files fs (<[name := mk_file (mode f) ""]> (files fs)), Ok name)
      else (fs, Ok name)
  | None =>
      if has flag O_CREATE then
        (with_files fs
           (<[name := mk_file (Z.land perm (Z.lnot (umask fs))) ""]> (files fs)),
         Ok name)
      else (fs, Err (os_error ENOENT name))
  end.

(** Bytes written from offset 0 replace the start of what was there. *)
Definition overwrite (text old : string) : string :=
  text +:+ String.substring (String.length text)
                            (String.length old - String.length text)%nat old.

Definition Write (fs : FS) (fd : string) (text : string) : FS :=
  with_files fs
    (alter (fun f => mk_file (mode f) (overwrite text (contents f))) fd (files fs)).

Definition MkdirAll (fs : FS) (path : string) (perm : Z) : option error :=
  match files fs !! path with
  | Some _ => Some (os_error ENOTDIR path)
  | None => None
  end.

Definition under (root p : string) : bool :=
  String.eqb p root || String.prefix (root +:+ "/") p.

(** [RemoveAll] of the empty path does nothing. *)
Definition RemoveAll (fs : FS) (path : string) : FS * option error :=
  if String.eqb path "" then (fs, None)
  else
    (with_files fs
       (filter (fun kv : string * File => Is_true (negb (under path (fst kv))))
               (files fs)),
     None).

(** [filepath.Join] of two clean elements: empty elements are ignored. *)
Definition Join (a b : string) : string :=
  if String.eqb a "" then b
  else if String.eqb b "" then a
  else a +:+ "/" +:+ b.

End os.

(** ** Package core *)

Module TemplateData.
Record t := mk {
  Tables : list Table.t;
  Table : Table.t;
  PkgName : string;
  Schema : string
}.
End TemplateData.

(** A renderer: the text it writes to its writer and the error it returns. *)
Definition renderer : Type := TemplateData.t -> string * option error.

Module Config.
(** Modelled from the spec: [core.Config] is declared in another file of
    the package; the fields are the ones [boilingcore.go] reads. [New] refuses a
    nil [TableRenderer], so [Run] always has one. *)
Record t := mk {
  DriverName : string;
  Schema : string;
  WhitelistTables : list string;
  BlacklistTables : list string;
  PkgName : string;
  OutFolder : string;
  Debug : bool;
  Wipe : bool;
  NoTests : bool;
  TableRenderer : renderer;
  TableTestRenderer : option renderer
}.
End Config.

(** The calls a run makes, in program order. *)
Inductive call :=
| call_Open
| call_Tables
| call_checkPKeys
| call_dump
| call_initOutFolder
| call_openFile (filename suffix : string)
| call_Render (table : string)
| call_RenderTest (table : string)
| call_Close.

Record World := mk_world {
  env : sql.Env;
  fs : os.FS;
  log : list call
}.

Definition logged (c : call) (w : World) : World :=
  mk_world (env w) (fs w) (log w ++ [c]).

Definition with_fs (w : World) (f : os.FS) : World :=
  mk_world (env w) f (log w).

Module core.

Record State (D : Type) := mk_state {
  Config : Config.t;
  Driver : D;
  Tables : list Table.t
}.
Arguments mk_state {D} _ _ _.
Arguments Config {D} _.
Arguments Driver {D} _.
Arguments Tables {D} _.

(** The loop of [checkPKeys]: append the name of each table without a key. *)
Definition missingPkey (tables : list Table.t) : list string :=
  fold_left
    (fun acc t =>
       match Table.PKey t with
       | None => acc ++ [Table.Name t]
       | Some _ => acc
       end)
    tables [].

Definition checkPKeys (tables : list Table.t) : option error :=
  if negb (Nat.eqb (List.length (missingPkey tables)) 0) then
    Some (errors_New ("primary key missing in tables ("
                      +:+ strings_Join (missingPkey tables) ", " +:+ ")"))
  else None.

Definition perm_0444 : Z := 292.

Definition openFile (cfg : Config.t) (w : World) (filename suffix : string)
  : World * result string :=
  let w := logged (call_openFile filename suffix) w in
  let path := os.Join (Config.OutFolder cfg) filename in
  match os.MkdirAll (fs w) path os.ModePerm with
  | Some err => (w, Err err)
  | None =>
      let '(fs', r) :=
        os.OpenFile (fs w) (os.Join path (filename +:+ suffix))
                    (Z.lor os.O_WRONLY os.O_CREATE) perm_0444 in
      (with_fs w fs', r)
  end.

Definition initOutFolder (cfg : Config.t) (w : World) : World * option error :=
  let w := logged call_initOutFolder w in
  if Config.Wipe cfg then
    match os.RemoveAll (fs w) (Config.OutFolder cfg) with
    | (_, Some err) => (w, Some err)
    | (fs', None) =>
        (with_fs w fs', os.MkdirAll fs' (Config.OutFolder cfg) os.ModePerm)
    end
  else (w, os.MkdirAll (fs w) (Config.OutFolder cfg) os.ModePerm).

(** One of the two closures in the loop of [Run]: open the file, render
    into it, close it. A failure to open is a panic. *)
Definition renderInto (cfg : Config.t) (render : renderer) (c : call)
           (suffix wrap : string) (data : TemplateData.t) (w : World)
  : World * outcome (option error) :=
  match openFile cfg w (Table.Name (TemplateData.Table data)) suffix with
  | (w, Err err) => (w, Panicked (panic_error err))
  | (w, Ok fd) =>
      let w := logged c w in
      let '(text, rerr) := render data in
      let w := with_fs w (os.Write (fs w) fd text) in
      match rerr with
      | Some err => (w, Returned (Some (errors_Wrap err wrap)))
      | None => (w, Returned None)
      end
  end.

(** The loop of [Run] over [s.Tables]; [all] is the whole sequence. *)
Fixpoint renderTables (cfg : Config.t) (all tables : list Table.t) (w : World)
  : World * outcome (option error) :=
  match tables with
  | [] => (w, Returned None)
  | table :: rest =>
      let data := TemplateData.mk all table (Config.PkgName cfg) (Config.Schema cfg) in
      if Table.IsJoinTable table then renderTables cfg all rest w
      else
        match renderInto cfg (Config.TableRenderer cfg) (call_Render (Table.Name table))
                         "_gen.go" "unable to generate output" data w with
        | (w, Returned None) =>
            match (if Config.NoTests cfg then None else Config.TableTestRenderer cfg) with
            | Some testRenderer =>
                match renderInto cfg testRenderer (call_RenderTest (Table.Name table))
                                 "_test_gen.go" "unable to generate test output" data w with
                | (w, Returned None) => renderTables cfg all rest w
                | stop => stop
                end
            | None => renderTables cfg all rest w
            end
        | stop => stop
        end
  end.

Section WithDriver.
Context {D : Type} `{Interface D}.

(** [db.Tables] belongs to package db: it is the table discovery the
    driver is put through, taken here as given. *)
Variable db_Tables :
  sql.Env -> D -> string -> list string -> list string -> result (list Table.t).

Definition initTables (s : State D) (w : World)
           (schema : string) (whitelist blacklist : list string)
  : State D * World * option error :=
  let w := logged call_Tables w in
  match db_Tables (env w) (Driver s) schema whitelist blacklist with
  | Err err =>
      (mk_state (Config s) (Driver s) [], w,
       Some (errors_Wrap err "unable to fetch table data"))
  | Ok tables =>
      let s := mk_state (Config s) (Driver s) tables in
      if Nat.eqb (List.length (Tables s)) 0 then
        (s, w, Some (errors_New "no tables found in database"))
      else
        let w := logged call_checkPKeys w in
        match checkPKeys (Tables s) with
        | Some err => (s, w, Some err)
        | None => (s, w, None)
        end
  end.

(** [Run]. The debug dump marshals plain structs, which does not fail;
    it is kept as a call in the log. *)
Definition Run (s : State D) (w : World) : State D * World * outcome (option error) :=
  let cfg := Config s in
  let w := logged call_Open w in
  match Open (env w) (Driver s) with
  | (d, Some err) =>
      (mk_state cfg d (Tables s), w,
       Returned (Some (errors_Wrap err "unable to connect to the database")))
  | (d, None) =>
      let s := mk_state cfg d (Tables s) in
      match initTables s w (Config.Schema cfg) (Config.WhitelistTables cfg)
                       (Config.BlacklistTables cfg) with
      | (s, w, Some err) =>
          (s, w, Returned (Some (errors_Wrap err "unable to initialize tables")))
      | (s, w, None) =>
          let w := if Config.Debug cfg then logged call_dump w else w in
          match initOutFolder cfg w with
          | (w, Some err) =>
              (s, w, Returned (Some (errors_Wrap err
                                       "unable to initialize the output folder")))
          | (w, None) =>
              let '(w, r) := renderTables cfg (Tables s) (Tables s) w in
              (s, w, r)
          end
      end
  end.

(** [Cleanup]: [s.Driver.Close()], then [return nil]. *)
Definition Cleanup (s : State D) (w : World) : World * outcome (State D * option error) :=
  let w := logged call_Close w in
  match Close (Driver s) with
  | Panicked p => (w, Panicked p)
  | Returned d => (w, Returned (mk_state (Config s) d (Tables s), None))
  end.

End WithDriver.

Section Drivers.
Context {D : Type}.

(** The drivers the three constructors build from the configuration, taken
    as given: the Postgres and mock drivers live in other files. *)
Variables postgresDriver mysqlDriver mockDriver : D.

(** [initDriver]: the driver is an interface value, nil until one of the
    arms of the switch assigns it. *)
Definition initDriver (s : State (option D)) (driverName : string)
  : State (option D) * option error :=
  let s :=
    if case_of driverName ["postgres"] then
      mk_state (Config s) (Some postgresDriver) (Tables s)
    else if case_of driverName ["mysql"] then
      mk_state (Config s) (Some mysqlDriver) (Tables s)
    else if case_of driverName ["mock"] then
      mk_state (Config s) (Some mockDriver) (Tables s)
    else s in
  match Driver s with
  | None => (s, Some (errors_New "An invalid driver name was provided"))
  | Some _ => (s, None)
  end.

End Drivers.

End core.

(** ** Specification-side vocabulary *)

(** The name of the [bits]-wide integer type: lower case for the bare Go
    type, capitalised for its wrapper in the null package. *)
Definition int_type (bits : string) (unsigned nullable : bool) : string :=
  (if nullable then (if unsigned then "Uint" else "Int")
   else (if unsigned then "uint" else "int")) +:+ bits.

Definition bool_type (nullable : bool) : string :=
  if nullable then "Bool" else "bool".

Definition text_type (nullable : bool) : string :=
  if nullable then "String" else "string".

(** The package qualifier that goes with a bare type (none is written, the
    field keeps its value) or with a null wrapper. *)
Definition plain_or_null (nullable : bool) (c : Column.t) : string :=
  if nullable then drivers.null_v6 else Column.PkgName c.

(** Every type name the translator can assign. *)
Definition semantic_types : list string :=
  ["bool"; "int8"; "uint8"; "int16"; "uint16"; "int32"; "uint32"; "int"; "uint";
   "int64"; "uint64"; "float32"; "float64"; "Time"; "[]byte"; "JSON"; "string";
   "Bool"; "Int8"; "Uint8"; "Int16"; "Uint16"; "Int32"; "Uint32"; "Int"; "Uint";
   "Int64"; "Uint64"; "Float32"; "Float64"; "Bytes"; "String"].

Definition is_boolean (type_name : string) : Prop :=
  type_name = "bool" \/ type_name = "Bool".

Definition lacks_key (t : Table.t) : bool :=
  match Table.PKey t with
  | None => true
  | Some _ => false
  end.

(** ** Example worlds *)

Definition example_catalog : list sql.table_row :=
  [sql.mk_row "app" "users" "BASE TABLE";
   sql.mk_row "app" "roles" "BASE TABLE";
   sql.mk_row "app" "active_users" "VIEW";
   sql.mk_row "other" "audit" "BASE TABLE"].

Definition server_up : sql.Server := sql.mk_server true true example_catalog.
Definition server_down : sql.Server := sql.mk_server false true example_catalog.

Definition env_up : sql.Env := sql.mk_env ["mysql"] (fun _ => true) server_up.
Definition env_down : sql.Env := sql.mk_env ["mysql"] (fun _ => true) server_down.
Definition env_bad_dsn : sql.Env := sql.mk_env ["mysql"] (fun _ => false) server_up.

Definition example_dsn : string := "app:secret@tcp(db.internal:3306)/app?parseTime=true".
Definition driver_new : MySQLDriver.t := MySQLDriver.mk example_dsn None.
Definition driver_open : MySQLDriver.t :=
  MySQLDriver.mk example_dsn (Some (sql.mk_db example_dsn false)).

Definition users_table : Table.t :=
  Table.mk "users" [] (Some (PrimaryKey.mk "PRIMARY" ["id"])) [] false.
Definition events_table : Table.t := Table.mk "events" [] None [] false.
Definition logs_table : Table.t := Table.mk "logs" [] None [] false.

Definition example_config : Config.t :=
  Config.mk "mysql" "app" [] [] "models" "out" false false true
            (fun _ => ("package models", None)) None.

(** A file someone left writable (0644) where the generator will write. *)
Definition fs_with_writable_file : os.FS :=
  os.mk_fs {[ "out/users/users_gen.go" := os.mk_file 420 "// edited by hand, keep" ]}
           18 false.

Definition world_with_writable_file : World :=
  mk_world env_up fs_with_writable_file [].

Definition empty_world : World := mk_world env_up (os.mk_fs ∅ 18 false) [].

Definition users_data : TemplateData.t :=
  TemplateData.mk [users_table] users_table "models" "app".

(** A stand-in for [db.Tables] in the examples: one bare table per name the
    driver lists. *)
Definition example_discovery (e : sql.Env) (d : MySQLDriver.t) (schema : string)
           (wl bl : list string) : result (list Table.t) :=
  match TableNames e d schema wl bl with
  | Returned (Ok names) => Ok (map (fun n => Table.mk n [] None [] false) names)
  | Returned (Err err) => Err (errors_Wrap err "unable to get table names")
  | Panicked _ => Err (errors_New "no connection")
  end.

Definition config_for (schema : string) : Config.t :=
  Config.mk "mysql" schema [] [] "models" "out" false false true
            (fun _ => ("package models", None)) None.

Definition state_new (schema : string) : core.State MySQLDriver.t :=
  core.mk_state (config_for schema) driver_new [].

(** ** Vocabulary for the properties of the remaining code *)

(** The tokenizer run over the first part of a text: where it stands
    afterwards and the tokens it has given so far. *)
Fixpoint lex_run (st : sql.lexing) (s : string) : sql.lexing * list sql.token :=
  match s with
  | EmptyString => (st, [])
  | String c rest =>
      let step := sql.lex_step st c in
      let run := lex_run (fst step) rest in
      (fst run, snd step ++ snd run)
  end.

(** The reader of tokens run over the first tokens. *)
Fixpoint parse_run (st : sql.parsing) (tokens : list sql.token) : option sql.parsing :=
  match tokens with
  | [] => Some st
  | t :: rest =>
      match sql.parse_step st t with
      | Some st' => parse_run st' rest
      | None => None
      end
  end.

(** The tokens of [k] further placeholders. *)
Fixpoint more_params (k : nat) : list sql.token :=
  match k with
  | O => []
  | S k' => sql.t_comma :: sql.t_param :: more_params k'
  end.

(** The elements of a path, cut at the separator. *)
Fixpoint split_path (element s : string) : list string :=
  match s with
  | EmptyString => [element]
  | String c rest =>
      if Ascii.eqb c "/" then element :: split_path "" rest
      else split_path (element +:+ String c "") rest
  end.

(** One element of a path: not empty, without separator, and neither of the
    two dot names, so that [filepath.Join] has nothing to clean. *)
Definition path_element (s : string) : bool :=
  match split_path "" s with
  | [e] => negb (String.eqb e "") && negb (String.eqb e ".") && negb (String.eqb e "..")
  | _ => false
  end.

(** A plain relative path: path elements separated by single separators. *)
Definition plain_path (s : string) : bool :=
  forallb path_element (split_path "" s).

(** No regular file stands where a directory above [path] has to be. *)
Definition no_file_above (fs0 : os.FS) (path : string) : Prop :=
  forall k, is_Some (os.files fs0 !! k) -> String.prefix (k +:+ "/") path = false.

(** How often a character occurs in a string. *)
Fixpoint count_char (a : ascii) (s : string) : nat :=
  match s with
  | EmptyString => O
  | String b rest => (if Ascii.eqb a b then 1 else 0) + count_char a rest
  end.

(** The tables the loop of [Run] renders. *)
Definition rendered (tables : list Table.t) : list Table.t :=
  List.filter (fun t => negb (Table.IsJoinTable t)) tables.

(** Where [openFile] puts the file of a table. *)
Definition output_file (cfg : Config.t) (filename suffix : string) : string :=
  os.Join (os.Join (Config.OutFolder cfg) filename) (filename +:+ suffix).

(** The operation descriptions [Run] wraps its errors in. *)
Definition run_messages : list string :=
  ["unable to connect to the database";
   "unable to initialize tables";
   "unable to initialize the output folder";
   "unable to generate output";
   "unable to generate test output"].

(** The package a translated column needs when it came in without one. *)
Definition package_of (raw : string) (nullable : bool) : string :=
  if case_of raw ["json"] then drivers.sqlboiler_types
  else if nullable then drivers.null_v6
  else if case_of raw ["date"; "datetime"; "timestamp"; "time"] then "time"
  else "".

(** A catalog constraint that is the primary key of a table. *)
Definition is_primary_key_of (tableName schema : string)
           (tc : information_schema.constraint_row) : Prop :=
  information_schema.tc_table_name tc = tableName /\
  information_schema.tc_table_schema tc = schema /\
  information_schema.constraint_type tc = "PRIMARY KEY".

(** Every foreign-key row names the table and column it refers to. *)
Definition references_complete (rows : list information_schema.key_usage_row) : Prop :=
  forall k, In k rows ->
    information_schema.referenced_table_name k <> None /\
    information_schema.referenced_column_name k <> None.

(** A small schema: users with a one-column key, user_roles with a key over
    both of its columns, each of them a foreign key. *)
Definition example_schema : information_schema.Catalog :=
  information_schema.mk_catalog
    [information_schema.mk_column "app" "users" "id" "int(10) unsigned" "int"
                                  None "NO" "auto_increment";
     information_schema.mk_column "app" "users" "email" "varchar(255)" "varchar"
                                  (Some "NULL") "YES" "";
     information_schema.mk_column "app" "users" "status" "enum('on','off')" "enum"
                                  (Some "on") "NO" "";
     information_schema.mk_column "app" "user_roles" "user_id" "int(10) unsigned" "int"
                                  None "NO" "";
     information_schema.mk_column "app" "user_roles" "role_id" "int(10) unsigned" "int"
                                  None "NO" "";
     information_schema.mk_column "app" "notes" "body" "text" "text" None "YES" ""]
    [information_schema.mk_constraint "PRIMARY" "app" "users" "PRIMARY KEY";
     information_schema.mk_constraint "PRIMARY" "app" "user_roles" "PRIMARY KEY";
     information_schema.mk_constraint "fk_user" "app" "user_roles" "FOREIGN KEY";
     information_schema.mk_constraint "fk_role" "app" "user_roles" "FOREIGN KEY"]
    [information_schema.mk_key_usage "PRIMARY" "app" "users" "id" None None None;
     information_schema.mk_key_usage "PRIMARY" "app" "user_roles" "user_id" None None None;
     information_schema.mk_key_usage "PRIMARY" "app" "user_roles" "role_id" None None None;
     information_schema.mk_key_usage "fk_user" "app" "user_roles" "user_id"
                                     (Some "app") (Some "users") (Some "id");
     information_schema.mk_key_usage "fk_role" "app" "user_roles" "role_id"
                                     (Some "auth") (Some "roles") (Some "id")].

(** A stand-in for [FormatDSN] in the examples. *)
Definition example_FormatDSN (c : mysql.Config) : string :=
  mysql.User c +:+ ":" +:+ mysql.Passwd c +:+ "@" +:+ mysql.Net c
  +:+ "(" +:+ mysql.Addr c +:+ ")/" +:+ mysql.DBName c.

Definition join_table : Table.t :=
  Table.mk "user_roles" [] (Some (PrimaryKey.mk "PRIMARY" ["user_id"; "role_id"])) [] true.

Definition failing_renderer : renderer :=
  fun _ => ("package", Some (errors_New "template: bad field")).

Definition config_with_tests : Config.t :=
  Config.mk "mysql" "app" [] [] "models" "out" false false false
            (fun _ => ("package models", None))
            (Some (fun _ => ("package models_test", None))).

(** ** The column type translator *)

Lemma case_of_In (s : string) (labels : list string) :
  case_of s labels = true <-> In s labels.
Proof.
  unfold case_of. rewrite existsb_exists. split.
  - intros [l [Hl He]]. apply String.eqb_eq in He. now subst.
  - intros Hs. exists s. split; [exact Hs | apply String.eqb_refl].
Qed.

Lemma case_of_unrecognized (s : string) (labels : list string) :
  ~ In s drivers.recognized ->
  forallb (fun l => case_of l drivers.recognized) labels = true ->
  case_of s labels = false.
Proof.
  intros Hs Hl. destruct (case_of s labels) eqn:E; [| reflexivity].
  exfalso. apply Hs. apply case_of_In in E.
  rewrite forallb_forall in Hl. apply case_of_In. now apply Hl.
Qed.

Ltac split_switch :=
  repeat match goal with
         | |- context [if ?b then _ else _] => destruct b
         end.

(** C10. The translator writes the type name and its package qualifier only:
    name, raw type, full type, default, nullability, unsigned and
    uniqueness flags of the column come back unchanged. *)
Theorem TranslateColumnType_frame (TinyintAsBool : bool) (c : Column.t) :
  let c' := drivers.TranslateColumnType TinyintAsBool c in
  Column.Name c' = Column.Name c /\
  Column.DBType c' = Column.DBType c /\
  Column.FullDBType c' = Column.FullDBType c /\
  Column.Nullable c' = Column.Nullable c /\
  Column.Unsigned c' = Column.Unsigned c /\
  Column.Unique c' = Column.Unique c /\
  Column.Default c' = Column.Default c.
Proof.
  destruct c as [name full raw dflt nullable unsigned unique pkg ty].
  unfold drivers.TranslateColumnType. cbn.
  split_switch; repeat split; reflexivity.
Qed.

(** C4. The translator is total: on every column it assigns one of the known
    type names; and a raw type no arm recognises is given the text type,
    [string], or [String] of the null package when the column is nullable. *)
Theorem TranslateColumnType_total_fallback (TinyintAsBool : bool) (c : Column.t) :
  let c' := drivers.TranslateColumnType TinyintAsBool c in
  In (Column.TypeName c') semantic_types /\
  (~ In (Column.DBType c) drivers.recognized ->
   Column.TypeName c' = text_type (Column.Nullable c) /\
   Column.PkgName c' = plain_or_null (Column.Nullable c) c).
Proof.
  cbv zeta. split.
  - unfold drivers.TranslateColumnType. cbv zeta.
    split_switch; cbn; tauto.
  - intros Hun. unfold drivers.TranslateColumnType. cbv zeta.
    rewrite !(case_of_unrecognized _ _ Hun) by reflexivity.
    unfold text_type, plain_or_null.
    destruct (Column.Nullable c); split; reflexivity.
Qed.

Lemma TranslateColumnType_total_fallback_witness :
  let c := Column.mk "shape" "geometry" "geometry" "" true false false "" "" in
  Column.TypeName (drivers.TranslateColumnType false c) = "String" /\
  Column.PkgName (drivers.TranslateColumnType false c) = "gopkg.in/nullbio/null.v6".
Proof.
  cbv zeta.
  apply (TranslateColumnType_total_fallback false
           (Column.mk "shape" "geometry" "geometry" "" true false false "" "")).
  cbn. intuition discriminate.
Defined.

Ltac by_cases_on_flags :=
  match goal with
  | c : Column.t |- _ =>
      destruct c as [name full raw dflt nullable unsigned unique pkg ty];
      cbn in *; subst;
      unfold drivers.TranslateColumnType, int_type, bool_type, plain_or_null; cbn
  end.

Lemma tinyint_without_switch (TinyintAsBool : bool) (c : Column.t) :
  Column.DBType c = "tinyint" ->
  TinyintAsBool = false \/ Column.FullDBType c <> "tinyint(1)" ->
  let c' := drivers.TranslateColumnType TinyintAsBool c in
  Column.TypeName c' = int_type "8" (Column.Unsigned c) (Column.Nullable c) /\
  Column.PkgName c' = plain_or_null (Column.Nullable c) c.
Proof.
  intros Hty Hsw. cbv zeta.
  assert (Hoff : TinyintAsBool && String.eqb (Column.FullDBType c) "tinyint(1)" = false).
  { destruct Hsw as [-> | Hne]; [reflexivity |].
    apply andb_false_iff; right; now apply String.eqb_neq. }
  by_cases_on_flags. rewrite Hoff.
  destruct nullable, unsigned; split; reflexivity.
Qed.

(** C5, as the code has it. The integer arms map the declared width and
    signedness to the narrowest integer type: smallint to 16 bits, mediumint
    to 32, bigint to 64, and tinyint to 8 unless the boolean switch is on and
    the full type is exactly tinyint(1); unsigned exactly when the column's
    flag is set, the null wrapper exactly when the column is nullable. *)
Theorem TranslateColumnType_integers (TinyintAsBool : bool) (c : Column.t) :
  let c' := drivers.TranslateColumnType TinyintAsBool c in
  let typed (bits : string) :=
    Column.TypeName c' = int_type bits (Column.Unsigned c) (Column.Nullable c) /\
    Column.PkgName c' = plain_or_null (Column.Nullable c) c in
  (Column.DBType c = "tinyint" ->
   TinyintAsBool = false \/ Column.FullDBType c <> "tinyint(1)" -> typed "8") /\
  (Column.DBType c = "smallint" -> typed "16") /\
  (Column.DBType c = "mediumint" -> typed "32") /\
  (Column.DBType c = "bigint" -> typed "64").
Proof.
  cbv zeta. split; [| split; [| split]].
  - intros Hty Hsw. now apply tinyint_without_switch.
  - intros Hty. by_cases_on_flags. destruct nullable, unsigned; split; reflexivity.
  - intros Hty. by_cases_on_flags. destruct nullable, unsigned; split; reflexivity.
  - intros Hty. by_cases_on_flags. destruct nullable, unsigned; split; reflexivity.
Qed.

Lemma TranslateColumnType_integers_witness :
  let qty := Column.mk "qty" "smallint(5) unsigned" "smallint" "" false true false "" "" in
  let age := Column.mk "age" "tinyint(4)" "tinyint" "" true false false "" "" in
  (Column.TypeName (drivers.TranslateColumnType true qty) = "uint16" /\
   Column.PkgName (drivers.TranslateColumnType true qty) = "") /\
  (Column.TypeName (drivers.TranslateColumnType true age) = "Int8" /\
   Column.PkgName (drivers.TranslateColumnType true age) = "gopkg.in/nullbio/null.v6").
Proof.
  cbv zeta. split.
  - apply (TranslateColumnType_integers true
             (Column.mk "qty" "smallint(5) unsigned" "smallint" "" false true false "" "")).
    reflexivity.
  - apply (proj1 (TranslateColumnType_integers true
                    (Column.mk "age" "tinyint(4)" "tinyint" "" true false false "" ""))).
    + reflexivity.
    + right. discriminate.
Defined.

(** C5, as stated, fails: with the boolean switch on, a tinyint(1) column is
    an integer-typed column that is not given the 8-bit integer type. *)
Lemma TranslateColumnType_tinyint_not_always_int8 :
  let c := Column.mk "active" "tinyint(1)" "tinyint" "" false false false "" "" in
  Column.DBType c = "tinyint" /\
  Column.TypeName (drivers.TranslateColumnType true c) = "bool" /\
  Column.TypeName (drivers.TranslateColumnType true c)
    <> int_type "8" (Column.Unsigned c) (Column.Nullable c).
Proof. cbv zeta. repeat split. discriminate. Qed.

(** C6. For a tinyint column: with the switch on and the full type exactly
    tinyint(1) the type is the boolean one (its null wrapper when nullable);
    with the switch off, or any other full type, it is the 8-bit integer.
    The switch is an argument of the whole translation, not a field of the
    column: two tinyint(1) columns of one run are both booleans or both
    integers. *)
Theorem TranslateColumnType_tinyint_as_bool (TinyintAsBool : bool) (c : Column.t) :
  Column.DBType c = "tinyint" ->
  let c' := drivers.TranslateColumnType TinyintAsBool c in
  (TinyintAsBool = true -> Column.FullDBType c = "tinyint(1)" ->
   Column.TypeName c' = bool_type (Column.Nullable c) /\
   Column.PkgName c' = plain_or_null (Column.Nullable c) c) /\
  (TinyintAsBool = false \/ Column.FullDBType c <> "tinyint(1)" ->
   Column.TypeName c' = int_type "8" (Column.Unsigned c) (Column.Nullable c) /\
   Column.PkgName c' = plain_or_null (Column.Nullable c) c) /\
  (forall c2 : Column.t,
     Column.DBType c2 = "tinyint" ->
     Column.FullDBType c = "tinyint(1)" -> Column.FullDBType c2 = "tinyint(1)" ->
     is_boolean (Column.TypeName c') <->
     is_boolean (Column.TypeName (drivers.TranslateColumnType TinyintAsBool c2))).
Proof.
  intros Hty. cbv zeta. split; [| split].
  - intros -> Hfull. by_cases_on_flags. destruct nullable; split; reflexivity.
  - intros Hsw. now apply tinyint_without_switch.
  - intros c2 Hty2 Hfull Hfull2. unfold is_boolean.
    destruct c2 as [name2 full2 raw2 dflt2 nullable2 unsigned2 unique2 pkg2 ty2].
    destruct c as [name full raw dflt nullable unsigned unique pkg ty].
    cbn in *; subst. unfold drivers.TranslateColumnType; cbn.
    destruct TinyintAsBool, nullable, nullable2, unsigned, unsigned2; cbn;
      split; intros [E | E]; try discriminate E; tauto.
Qed.

Lemma TranslateColumnType_tinyint_as_bool_witness :
  let c := Column.mk "active" "tinyint(1)" "tinyint" "" true false false "" "" in
  Column.TypeName (drivers.TranslateColumnType true c) = "Bool" /\
  Column.PkgName (drivers.TranslateColumnType true c) = "gopkg.in/nullbio/null.v6".
Proof.
  cbv zeta.
  apply (TranslateColumnType_tinyint_as_bool true
           (Column.mk "active" "tinyint(1)" "tinyint" "" true false false "" ""));
    reflexivity.
Defined.

(** ** The primary-key validation pass *)

Lemma append_assoc (a b c : string) : (a +:+ b) +:+ c = a +:+ (b +:+ c).
Proof.
  induction a as [| ch a IH]; [reflexivity |].
  change (String ch ((a +:+ b) +:+ c) = String ch (a +:+ (b +:+ c))).
  now rewrite IH.
Qed.

Lemma append_empty_r (a : string) : a +:+ "" = a.
Proof.
  induction a as [| ch a IH]; [reflexivity |].
  change (String ch (a +:+ "") = String ch a). now rewrite IH.
Qed.

Lemma missingPkey_from (tables : list Table.t) (acc : list string) :
  fold_left
    (fun acc t =>
       match Table.PKey t with
       | None => acc ++ [Table.Name t]
       | Some _ => acc
       end)
    tables acc
  = acc ++ map Table.Name (List.filter lacks_key tables).
Proof.
  revert acc. induction tables as [| t tables IH]; intros acc; cbn.
  - now rewrite app_nil_r.
  - rewrite IH. unfold lacks_key. destruct (Table.PKey t); cbn; [reflexivity |].
    now rewrite <- app_assoc.
Qed.

Lemma missingPkey_filter (tables : list Table.t) :
  core.missingPkey tables = map Table.Name (List.filter lacks_key tables).
Proof. unfold core.missingPkey. now rewrite missingPkey_from. Qed.

Lemma strings_Join_mentions (sep x : string) (elems : list string) :
  In x elems -> exists pre post, strings_Join elems sep = pre +:+ x +:+ post.
Proof.
  induction elems as [| y elems IH]; intros Hin; [destruct Hin |].
  destruct elems as [| z elems].
  - destruct Hin as [-> | []]. exists "", "".
    change (x = x +:+ ""). now rewrite append_empty_r.
  - destruct Hin as [-> | Hin].
    + exists "", (sep +:+ strings_Join (z :: elems) sep). reflexivity.
    + destruct (IH Hin) as [pre [post E]].
      exists (y +:+ sep +:+ pre), post.
      change (y +:+ sep +:+ strings_Join (z :: elems) sep
              = (y +:+ sep +:+ pre) +:+ x +:+ post).
      rewrite E. now rewrite !append_assoc.
Qed.

Lemma lacks_key_None (t : Table.t) : lacks_key t = true <-> Table.PKey t = None.
Proof. unfold lacks_key. destruct (Table.PKey t); split; congruence. Qed.

Lemma checkPKeys_None (tables : list Table.t) :
  core.checkPKeys tables = None <-> (forall t, In t tables -> Table.PKey t <> None).
Proof.
  unfold core.checkPKeys. rewrite missingPkey_filter. split.
  - intros Hnone t Hin Hpk.
    destruct (List.filter lacks_key tables) as [| u us] eqn:E; [| discriminate Hnone].
    assert (Hf : In t (List.filter lacks_key tables))
      by (apply filter_In; split; [exact Hin | now apply lacks_key_None]).
    rewrite E in Hf. destruct Hf.
  - intros Hall.
    destruct (List.filter lacks_key tables) as [| u us] eqn:E; [reflexivity |].
    exfalso.
    assert (Hu : In u (List.filter lacks_key tables)) by (rewrite E; now left).
    apply filter_In in Hu. destruct Hu as [Hin Hk].
    apply lacks_key_None in Hk. exact (Hall u Hin Hk).
Qed.

(** C1. The pass fails exactly when some table has no primary key. Its error
    then lists the names of all such tables, in table order, so each of them
    occurs in the message. When every table has a key the pass returns nil,
    and [initTables] leaves the discovered sequence in the state as it was
    returned. *)
Theorem checkPKeys_collects_all (tables : list Table.t) :
  let missing := map Table.Name (List.filter lacks_key tables) in
  (core.checkPKeys tables <> None <->
   exists t, In t tables /\ Table.PKey t = None) /\
  (missing <> [] ->
   core.checkPKeys tables
   = Some (errors_New ("primary key missing in tables ("
                       +:+ strings_Join missing ", " +:+ ")"))) /\
  (forall t, In t tables -> Table.PKey t = None ->
     exists pre post,
       core.checkPKeys tables = Some (errors_New (pre +:+ Table.Name t +:+ post))) /\
  ((forall t, In t tables -> Table.PKey t <> None) ->
   core.checkPKeys tables = None /\
   forall (D : Type) (I : Interface D)
          (db_Tables : sql.Env -> D -> string -> list string -> list string
                       -> result (list Table.t))
          (s : core.State D) (w : World) (schema : string) (wl bl : list string),
     tables <> [] ->
     db_Tables (env w) (core.Driver s) schema wl bl = Ok tables ->
     core.initTables db_Tables s w schema wl bl
     = (core.mk_state (core.Config s) (core.Driver s) tables,
        logged call_checkPKeys (logged call_Tables w), None)).
Proof.
  cbv zeta.
  assert (Hmsg : map Table.Name (List.filter lacks_key tables) <> [] ->
                 core.checkPKeys tables
                 = Some (errors_New ("primary key missing in tables ("
                                     +:+ strings_Join
                                           (map Table.Name (List.filter lacks_key tables))
                                           ", " +:+ ")"))).
  { intros Hne. unfold core.checkPKeys. rewrite missingPkey_filter.
    destruct (map Table.Name (List.filter lacks_key tables)); [contradiction | reflexivity]. }
  split; [| split; [exact Hmsg | split]].
  - split.
    + intros Hsome.
      destruct (List.filter lacks_key tables) as [| u us] eqn:E.
      * exfalso. apply Hsome. unfold core.checkPKeys.
        rewrite missingPkey_filter, E. reflexivity.
      * assert (Hu : In u (List.filter lacks_key tables)) by (rewrite E; now left).
        apply filter_In in Hu. destruct Hu as [Hin Hk].
        exists u. split; [exact Hin | now apply lacks_key_None].
    + intros [t [Hin Hpk]] Hnone.
      exact (proj1 (checkPKeys_None tables) Hnone t Hin Hpk).
  - intros t Hin Hpk.
    assert (Hf : In (Table.Name t) (map Table.Name (List.filter lacks_key tables))).
    { apply in_map. apply filter_In. split; [exact Hin | now apply lacks_key_None]. }
    rewrite Hmsg by (intros E; rewrite E in Hf; destruct Hf).
    destruct (strings_Join_mentions ", " _ _ Hf) as [pre [post E]].
    exists ("primary key missing in tables (" +:+ pre), (post +:+ ")").
    rewrite E. now rewrite !append_assoc.
  - intros Hall.
    assert (Hnone : core.checkPKeys tables = None) by now apply checkPKeys_None.
    split; [exact Hnone |].
    intros D I db_Tables s w schema wl bl Hne Hdb.
    unfold core.initTables. cbn. rewrite Hdb. cbn.
    destruct tables as [| t0 rest]; [contradiction |]. cbn.
    fold (core.checkPKeys (t0 :: rest)). now rewrite Hnone.
Qed.

(** ** Listing table names *)

Lemma lex_app (st : sql.lexing) (a b : string) :
  sql.lex st (a +:+ b) = snd (lex_run st a) ++ sql.lex (fst (lex_run st a)) b.
Proof.
  revert st. induction a as [| c a IH]; intros st; [reflexivity |].
  change (sql.lex st (String c (a +:+ b))
          = snd (lex_run st (String c a)) ++ sql.lex (fst (lex_run st (String c a))) b).
  cbn [sql.lex lex_run]. cbv zeta. cbn [fst snd]. rewrite IH. now rewrite app_assoc.
Qed.

Lemma parse_app (st : sql.parsing) (ts us : list sql.token) :
  sql.parse st (ts ++ us)
  = match parse_run st ts with
    | Some st' => sql.parse st' us
    | None => None
    end.
Proof.
  revert st. induction ts as [| t ts IH]; intros st; [reflexivity |].
  cbn [app sql.parse parse_run].
  destruct (sql.parse_step st t); [apply IH | reflexivity].
Qed.

(** The tokens of the end of a placeholder list: [k] times a comma and a
    placeholder, the closing bracket, the semicolon. *)
Lemma lex_more_params (k : nat) :
  sql.lex sql.between (strings_Repeat ",?" k +:+ ");")
  = more_params k ++ [sql.t_close; sql.t_end].
Proof.
  induction k as [| k IH]; [reflexivity |].
  change (strings_Repeat ",?" (S k) +:+ ");")
    with (String "," (String "?" (strings_Repeat ",?" k +:+ ");"))).
  change (sql.lex sql.between
            (String "," (String "?" (strings_Repeat ",?" k +:+ ");"))))
    with (sql.t_comma :: sql.t_param
          :: sql.lex sql.between (strings_Repeat ",?" k +:+ ");")).
  now rewrite IH.
Qed.

Lemma parse_more_params (q : sql.statement) (column : string) (negated : bool)
      (n k : nat) (rest : list sql.token) :
  sql.parse (sql.want_more q column negated n) (more_params k ++ rest)
  = sql.parse (sql.want_more q column negated (n + k)) rest.
Proof.
  revert n. induction k as [| k IH]; intros n.
  - now rewrite Nat.add_0_r.
  - cbn [more_params app sql.parse sql.parse_step]. rewrite IH.
    now replace (S n + k)%nat with (n + S k)%nat by lia.
Qed.

(** The statement with a list of [S k] placeholders, as the server reads it:
    the two conditions on schema and type, then the condition on the name. *)
Lemma read_in_clause (k : nat) :
  sql.parse sql.want_select
            (sql.lex sql.between (sql.select_base_tables +:+ sql.in_clause (S k)))
  = Some (sql.mk_statement
            "table_name" "information_schema.tables"
            [sql.equals_param "table_schema";
             sql.equals_text "table_type" "BASE TABLE";
             sql.in_params "table_name" false (S k)]).
Proof.
  change (sql.select_base_tables +:+ sql.in_clause (S k))
    with ((sql.select_base_tables +:+ " and table_name in (?")
          +:+ (strings_Repeat ",?" k +:+ ");")).
  rewrite lex_app.
  change (lex_run sql.between (sql.select_base_tables +:+ " and table_name in (?"))
    with (sql.between,
          [sql.t_word "select"; sql.t_word "table_name"; sql.t_word "from";
           sql.t_word "information_schema.tables"; sql.t_word "where";
           sql.t_word "table_schema"; sql.t_equal; sql.t_param; sql.t_word "and";
           sql.t_word "table_type"; sql.t_equal; sql.t_text "BASE TABLE";
           sql.t_word "and"; sql.t_word "table_name"; sql.t_word "in";
           sql.t_open; sql.t_param]).
  cbn [fst snd]. rewrite lex_more_params, parse_app.
  cbn [parse_run sql.parse_step String.eqb Ascii.eqb Bool.eqb sql.is_keyword case_of existsb
       orb sql.with_condition sql.target sql.source sql.conditions app].
  rewrite parse_more_params. reflexivity.
Qed.

Lemma read_not_in_clause (k : nat) :
  sql.parse sql.want_select
            (sql.lex sql.between (sql.select_base_tables +:+ sql.not_in_clause (S k)))
  = Some (sql.mk_statement
            "table_name" "information_schema.tables"
            [sql.equals_param "table_schema";
             sql.equals_text "table_type" "BASE TABLE";
             sql.in_params "table_name" true (S k)]).
Proof.
  change (sql.select_base_tables +:+ sql.not_in_clause (S k))
    with ((sql.select_base_tables +:+ " and table_name not in (?")
          +:+ (strings_Repeat ",?" k +:+ ");")).
  rewrite lex_app.
  change (lex_run sql.between (sql.select_base_tables +:+ " and table_name not in (?"))
    with (sql.between,
          [sql.t_word "select"; sql.t_word "table_name"; sql.t_word "from";
           sql.t_word "information_schema.tables"; sql.t_word "where";
           sql.t_word "table_schema"; sql.t_equal; sql.t_param; sql.t_word "and";
           sql.t_word "table_type"; sql.t_equal; sql.t_text "BASE TABLE";
           sql.t_word "and"; sql.t_word "table_name"; sql.t_word "not"; sql.t_word "in";
           sql.t_open; sql.t_param]).
  cbn [fst snd]. rewrite lex_more_params, parse_app.
  cbn [parse_run sql.parse_step String.eqb Ascii.eqb Bool.eqb sql.is_keyword case_of existsb
       orb sql.with_condition sql.target sql.source sql.conditions app].
  rewrite parse_more_params. reflexivity.
Qed.

Lemma filter_map_commute {A B : Type} (f : A -> B) (p : A -> bool) (q : B -> bool)
      (l : list A) :
  map f (List.filter (fun x => p x && q (f x)) l)
  = List.filter q (map f (List.filter p l)).
Proof.
  induction l as [| x l IH]; [reflexivity |].
  cbn [List.filter]. destruct (p x); cbn [andb List.filter map].
  - destruct (q (f x)); cbn [map]; now rewrite IH.
  - exact IH.
Qed.

(** What the answer to a statement with the two conditions on schema and
    type and one on the name comes to. *)
Lemma answer_by_name (srv : sql.Server) (schema : string) (negated : bool)
      (names : list string) :
  map (fun r => sql.field r "table_name")
      (List.filter
         (fun r => forallb (sql.passes r)
                           [sql.is_value "table_schema" schema;
                            sql.is_value "table_type" "BASE TABLE";
                            sql.is_among "table_name" negated names])
         (sql.information_schema_tables srv))
  = List.filter (fun n => xorb negated (case_of n names)) (sql.base_tables srv schema).
Proof.
  unfold sql.base_tables.
  rewrite <- (filter_map_commute sql.table_name (sql.is_base_table_of schema)
                (fun n => xorb negated (case_of n names))).
  f_equal. apply List.filter_ext. intros r.
  unfold sql.is_base_table_of. cbn [forallb sql.passes].
  change (sql.field r "table_schema") with (sql.table_schema r).
  change (sql.field r "table_type") with (sql.table_type r).
  change (sql.field r "table_name") with (sql.table_name r).
  rewrite andb_true_r. now rewrite andb_assoc.
Qed.

Lemma read_plain :
  sql.parse sql.want_select (sql.lex sql.between sql.select_base_tables)
  = Some (sql.mk_statement
            "table_name" "information_schema.tables"
            [sql.equals_param "table_schema";
             sql.equals_text "table_type" "BASE TABLE"]).
Proof. vm_compute. reflexivity. Qed.

Lemma answer_all (srv : sql.Server) (schema : string) :
  sql.answer srv sql.select_base_tables [schema] = Ok (sql.base_tables srv schema).
Proof.
  unfold sql.answer. rewrite read_plain. cbv beta iota.
  change (sql.well_named _) with true.
  cbn [negb sql.conditions sql.bind sql.target].
  unfold sql.base_tables. f_equal. f_equal.
  apply List.filter_ext. intros r.
  unfold sql.is_base_table_of. cbn [forallb sql.passes].
  change (sql.field r "table_schema") with (sql.table_schema r).
  change (sql.field r "table_type") with (sql.table_type r).
  now rewrite andb_true_r.
Qed.

Lemma bind_names (schema : string) (negated : bool) (names : list string) :
  sql.bind [sql.equals_param "table_schema";
            sql.equals_text "table_type" "BASE TABLE";
            sql.in_params "table_name" negated (List.length names)]
           (schema :: names)
  = Some [sql.is_value "table_schema" schema;
          sql.is_value "table_type" "BASE TABLE";
          sql.is_among "table_name" negated names].
Proof.
  cbn [sql.bind]. rewrite Nat.ltb_irrefl.
  rewrite skipn_all, firstn_all. reflexivity.
Qed.

Lemma answer_in (srv : sql.Server) (schema : string) (names : list string) :
  names <> [] ->
  sql.answer srv (sql.select_base_tables +:+ sql.in_clause (List.length names))
             (schema :: names)
  = Ok (List.filter (fun n => case_of n names) (sql.base_tables srv schema)).
Proof.
  intros Hne. destruct names as [| a names]; [contradiction |].
  unfold sql.answer. cbn [List.length]. rewrite read_in_clause. cbv beta iota.
  change (sql.well_named _) with true.
  cbn [negb sql.conditions sql.target].
  change (S (List.length names)) with (List.length (a :: names)).
  rewrite bind_names. f_equal. apply answer_by_name.
Qed.

Lemma answer_not_in (srv : sql.Server) (schema : string) (names : list string) :
  names <> [] ->
  sql.answer srv (sql.select_base_tables +:+ sql.not_in_clause (List.length names))
             (schema :: names)
  = Ok (List.filter (fun n => negb (case_of n names)) (sql.base_tables srv schema)).
Proof.
  intros Hne. destruct names as [| a names]; [contradiction |].
  unfold sql.answer. cbn [List.length]. rewrite read_not_in_clause. cbv beta iota.
  change (sql.well_named _) with true.
  cbn [negb sql.conditions sql.target].
  change (S (List.length names)) with (List.length (a :: names)).
  rewrite bind_names. f_equal. apply answer_by_name.
Qed.

Lemma TableNames_usable (env : sql.Env) (m : MySQLDriver.t) (schema : string)
      (wl bl : list string) :
  MySQLDriver.usable env m = true ->
  MySQLDriver.TableNames env m schema wl bl
  = Returned
      (Ok (match wl, bl with
           | _ :: _, _ => List.filter (fun n => case_of n wl)
                                      (sql.base_tables (sql.server env) schema)
           | [], _ :: _ => List.filter (fun n => negb (case_of n bl))
                                       (sql.base_tables (sql.server env) schema)
           | [], [] => sql.base_tables (sql.server env) schema
           end)).
Proof.
  unfold MySQLDriver.usable, MySQLDriver.TableNames, MySQLDriver.tableNamesQuery.
  destruct (MySQLDriver.dbConn m) as [d |]; [| discriminate].
  intros Hu. apply andb_true_iff in Hu. destruct Hu as [Hu Hacc].
  apply andb_true_iff in Hu. destruct Hu as [Hopen Hreach].
  apply negb_true_iff in Hopen.
  destruct wl as [| a wl]; [destruct bl as [| b bl] |]; cbn [List.length Nat.ltb Nat.leb];
    unfold sql.Query; rewrite Hopen, Hreach, Hacc; cbn [negb].
  - change ([schema]) with (schema :: @nil string). now rewrite answer_all.
  - change ([schema] ++ b :: bl) with (schema :: b :: bl).
    change (S (List.length bl)) with (List.length (b :: bl)).
    now rewrite answer_not_in.
  - change ([schema] ++ a :: wl) with (schema :: a :: wl).
    change (S (List.length wl)) with (List.length (a :: wl)).
    now rewrite answer_in.
Qed.

Lemma TableNames_unusable (env : sql.Env) (m : MySQLDriver.t) (schema : string)
      (wl bl names : list string) :
  MySQLDriver.usable env m = false ->
  MySQLDriver.TableNames env m schema wl bl <> Returned (Ok names).
Proof.
  unfold MySQLDriver.usable, MySQLDriver.TableNames.
  destruct (MySQLDriver.tableNamesQuery schema wl bl) as [query args].
  destruct (MySQLDriver.dbConn m) as [d |]; [| discriminate].
  unfold sql.Query.
  destruct (sql.closed d); [discriminate |].
  destruct (sql.reachable (sql.server env)); [| discriminate].
  destruct (sql.accepts_credentials (sql.server env)); discriminate.
Qed.

(** C3. With a non-empty allowlist every returned name is in the allowlist and
    is a base table of the schema; when the query is answered the result is
    the base tables that are in the allowlist, the base tables not in the
    denylist if only a denylist is given, and all base tables if neither is.
    An allowlist makes the denylist irrelevant. *)
Theorem TableNames_allow_deny (env : sql.Env) (m : MySQLDriver.t) (schema : string)
        (whitelist blacklist : list string) :
  let all := sql.base_tables (sql.server env) schema in
  let got := MySQLDriver.TableNames env m schema whitelist blacklist in
  (whitelist <> [] ->
   forall names, got = Returned (Ok names) ->
   forall n, In n names -> In n whitelist /\ In n all) /\
  (MySQLDriver.usable env m = true ->
   (whitelist <> [] ->
    got = Returned (Ok (List.filter (fun n => case_of n whitelist) all))) /\
   (whitelist = [] -> blacklist <> [] ->
    got = Returned (Ok (List.filter (fun n => negb (case_of n blacklist)) all))) /\
   (whitelist = [] -> blacklist = [] -> got = Returned (Ok all))) /\
  (whitelist <> [] ->
   got = MySQLDriver.TableNames env m schema whitelist []).
Proof.
  cbv zeta. split; [| split].
  - intros Hne names Hgot n Hin.
    destruct (MySQLDriver.usable env m) eqn:Hu.
    + rewrite (TableNames_usable _ _ _ _ _ Hu) in Hgot.
      destruct whitelist as [| a wl]; [contradiction |].
      injection Hgot as <-. apply filter_In in Hin. destruct Hin as [Hall Hc].
      split; [now apply case_of_In | exact Hall].
    + exfalso. exact (TableNames_unusable _ _ _ _ _ _ Hu Hgot).
  - intros Hu. rewrite (TableNames_usable _ _ _ _ _ Hu). repeat split.
    + intros Hne. destruct whitelist; [contradiction | reflexivity].
    + intros -> Hne. destruct blacklist; [contradiction | reflexivity].
    + intros -> ->. reflexivity.
  - intros Hne. unfold MySQLDriver.TableNames, MySQLDriver.tableNamesQuery.
    destruct whitelist; [contradiction | reflexivity].
Qed.

(** ** The run: connecting and discovering tables *)

(** C2. When table discovery comes back with no table the run stops with the
    error "no tables found in database" (wrapped by [Run]); up to then it has
    called [Open] and [db.Tables] only: the key check, the output folder, the
    files and the renderers have not been touched. *)
Theorem Run_no_tables (D : Type) (I : Interface D)
        (db_Tables : sql.Env -> D -> string -> list string -> list string
                     -> result (list Table.t))
        (s : core.State D) (w : World) (d : D) :
  Open (env w) (core.Driver s) = (d, None) ->
  db_Tables (env w) d (Config.Schema (core.Config s))
            (Config.WhitelistTables (core.Config s))
            (Config.BlacklistTables (core.Config s)) = Ok [] ->
  exists s' w',
    core.Run db_Tables s w
    = (s', w',
       Returned (Some (errors_Wrap (errors_New "no tables found in database")
                                   "unable to initialize tables"))) /\
    log w' = log w ++ [call_Open; call_Tables] /\
    fs w' = fs w /\
    (forall c, In c (log w') -> In c (log w) \/ c = call_Open \/ c = call_Tables).
Proof.
  intros Hopen Hdb.
  exists (core.mk_state (core.Config s) d []), (logged call_Tables (logged call_Open w)).
  split; [| split; [| split]].
  - unfold core.Run. cbn [env logged]. rewrite Hopen.
    unfold core.initTables. cbn [env logged core.Driver core.Config]. rewrite Hdb.
    reflexivity.
  - cbn. now rewrite <- app_assoc.
  - reflexivity.
  - intros c Hc. cbn in Hc. rewrite !in_app_iff in Hc. cbn in Hc.
    intuition (subst; auto).
Qed.

(** C7, as the code has it. [Open] fails exactly when [sql.Open] refuses the
    driver name or the connection string and returns that error; the server
    is not contacted, so whether it is reachable or accepts the credentials
    does not change the result of [Open]: such a failure is reported by the
    first query. When [Open] does fail, the run returns its error wrapped
    and has made no call after [Open]: [db.Tables], the only way to
    [TableNames], is not reached. *)
Theorem Open_checks_arguments_only (env0 : sql.Env) (m : MySQLDriver.t) :
  (snd (MySQLDriver.Open env0 m)
   = match sql.Open env0 "mysql" (MySQLDriver.connStr m) with
     | Ok _ => None
     | Err e => Some e
     end) /\
  (forall srv : sql.Server,
     MySQLDriver.Open (sql.mk_env (sql.registered env0) (sql.valid_dsn env0) srv) m
     = MySQLDriver.Open env0 m) /\
  (forall m', MySQLDriver.Open env0 m = (m', None) ->
     forall schema wl bl,
       (sql.reachable (sql.server env0) = false ->
        MySQLDriver.TableNames env0 m' schema wl bl
        = Returned (Err (sql_error ConnectionRefused))) /\
       (sql.reachable (sql.server env0) = true ->
        sql.accepts_credentials (sql.server env0) = false ->
        MySQLDriver.TableNames env0 m' schema wl bl
        = Returned (Err (sql_error AccessDenied)))) /\
  (forall (D : Type) (I : Interface D)
          (db_Tables : sql.Env -> D -> string -> list string -> list string
                       -> result (list Table.t))
          (s : core.State D) (w : World) (d : D) (e : error),
     Open (env w) (core.Driver s) = (d, Some e) ->
     core.Run db_Tables s w
     = (core.mk_state (core.Config s) d (core.Tables s), logged call_Open w,
        Returned (Some (errors_Wrap e "unable to connect to the database")))).
Proof.
  split; [| split; [| split]].
  - unfold MySQLDriver.Open. destruct (sql.Open env0 "mysql" _); reflexivity.
  - intros srv. reflexivity.
  - intros m' Hopen schema wl bl.
    unfold MySQLDriver.Open in Hopen. unfold sql.Open in Hopen.
    destruct (negb (case_of "mysql" (sql.registered env0))); [discriminate |].
    destruct (negb (sql.valid_dsn env0 (MySQLDriver.connStr m))); [discriminate |].
    injection Hopen as <-.
    unfold MySQLDriver.TableNames.
    destruct (MySQLDriver.tableNamesQuery schema wl bl) as [query args].
    cbn. unfold sql.Query. cbn.
    split; [intros -> | intros -> ->]; reflexivity.
  - intros D I db_Tables s w d e Hopen.
    unfold core.Run. cbn [env logged]. now rewrite Hopen.
Qed.

(** ** Closing the connection *)

(** C8, as the code has it. [Close] calls the handle's [Close] without a nil
    check: after an [Open] that succeeded it returns, and [Cleanup] returns
    nil; after an [Open] that failed the handle is nil and [Close], and
    [Cleanup] with it, panics on the nil dereference. *)
Theorem Close_needs_successful_Open (env0 : sql.Env) (m m' : MySQLDriver.t)
        (cfg : Config.t) (tables : list Table.t) (w : World) :
  (MySQLDriver.Open env0 m = (m', None) ->
   exists m'',
     MySQLDriver.Close m' = Returned m'' /\
     core.Cleanup (core.mk_state cfg m' tables) w
     = (logged call_Close w, Returned (core.mk_state cfg m'' tables, None))) /\
  (forall e, MySQLDriver.Open env0 m = (m', Some e) ->
     MySQLDriver.dbConn m' = None /\
     MySQLDriver.Close m' = Panicked nil_dereference /\
     core.Cleanup (core.mk_state cfg m' tables) w
     = (logged call_Close w, Panicked nil_dereference)).
Proof.
  unfold MySQLDriver.Open. split.
  - intros Hopen. destruct (sql.Open env0 "mysql" _) as [d | e]; [| discriminate].
    injection Hopen as <-.
    exists (MySQLDriver.mk (MySQLDriver.connStr m) (Some (sql.Close d))).
    split; reflexivity.
  - intros e Hopen. destruct (sql.Open env0 "mysql" _) as [d | e']; [discriminate |].
    injection Hopen as <- _. repeat split.
Qed.

Lemma Close_needs_successful_Open_witness :
  exists m'',
    MySQLDriver.Close driver_open = Returned m'' /\
    core.Cleanup (core.mk_state example_config driver_open []) empty_world
    = (logged call_Close empty_world,
       Returned (core.mk_state example_config m'' [], None)).
Proof.
  exact (proj1 (Close_needs_successful_Open env_up driver_new driver_open
                  example_config [] empty_world) eq_refl).
Defined.

(** C8, as stated, fails: after an [Open] that did not succeed, [Close]
    faults. *)
Lemma Close_after_failed_Open_panics :
  snd (MySQLDriver.Open env_bad_dsn driver_new) = Some (sql_error InvalidDSN) /\
  MySQLDriver.Close (fst (MySQLDriver.Open env_bad_dsn driver_new))
  = Panicked nil_dereference.
Proof. split; reflexivity. Qed.

(** C7, as stated, fails: with the server unreachable, [Open] returns nil. *)
Lemma Open_succeeds_when_unreachable :
  sql.reachable (sql.server env_down) = false /\
  snd (MySQLDriver.Open env_down driver_new) = None.
Proof. split; reflexivity. Qed.

(** ** Output files *)

Lemma prefix_append (s t : string) : String.prefix s (s +:+ t) = true.
Proof.
  induction s as [| a s IH]; [now destruct t |].
  change (String.prefix (String a s) (String a (s +:+ t)) = true).
  cbn. destruct (ascii_dec a a) as [_ | Hne]; [exact IH | now elim Hne].
Qed.

Lemma under_Join (root rest : string) :
  root <> "" -> rest <> "" -> os.under root (os.Join root rest) = true.
Proof.
  intros Hroot Hrest. unfold os.under, os.Join.
  apply String.eqb_neq in Hroot. apply String.eqb_neq in Hrest.
  rewrite Hroot, Hrest. apply orb_true_iff. right.
  rewrite <- append_assoc. apply prefix_append.
Qed.

Lemma Join_assoc (a b c : string) :
  a <> "" -> b <> "" -> c <> "" ->
  os.Join (os.Join a b) c = os.Join a (os.Join b c).
Proof.
  intros Ha Hb Hc. unfold os.Join.
  apply String.eqb_neq in Ha. apply String.eqb_neq in Hb. apply String.eqb_neq in Hc.
  rewrite Ha, Hb, Hc.
  assert (E1 : String.eqb (a +:+ "/" +:+ b) "" = false)
    by (destruct a; [discriminate Ha | reflexivity]).
  assert (E2 : String.eqb (b +:+ "/" +:+ c) "" = false)
    by (destruct b; [discriminate Hb | reflexivity]).
  rewrite E1, E2. now rewrite !append_assoc.
Qed.

Lemma Join_nonempty (a b : string) : b <> "" -> os.Join a b <> "".
Proof.
  intros Hb. unfold os.Join.
  destruct (String.eqb a "") eqn:Ea; [exact Hb |].
  apply String.eqb_neq in Hb. rewrite Hb.
  destruct a; [discriminate Ea | discriminate].
Qed.

Lemma RemoveAll_under (fs0 : os.FS) (root p : string) :
  root <> "" -> os.under root p = true ->
  os.files (fst (os.RemoveAll fs0 root)) !! p = None.
Proof.
  intros Hroot Hun. unfold os.RemoveAll.
  apply String.eqb_neq in Hroot. rewrite Hroot. cbn.
  apply map_lookup_filter_None. right. intros f _. cbn. now rewrite Hun.
Qed.

Lemma created_mode_read_only (umask : Z) :
  Z.testbit (Z.land core.perm_0444 (Z.lnot umask)) 7 = false.
Proof. rewrite Z.land_spec. reflexivity. Qed.

Lemma Join_longer (a b : string) : a <> "" -> b <> "" -> os.Join a b <> a.
Proof.
  intros Ha Hb E. unfold os.Join in E.
  apply String.eqb_neq in Ha. apply String.eqb_neq in Hb.
  rewrite Ha, Hb in E.
  rewrite <- (append_empty_r a) in E at 2.
  apply (String.app_inj a) in E. discriminate E.
Qed.

Lemma append_nonempty (a b : string) : a <> "" -> a +:+ b <> "".
Proof. intros Ha. destruct a; [contradiction | discriminate]. Qed.

Lemma openFile_flags :
  os.has (Z.lor os.O_WRONLY os.O_CREATE) os.O_CREATE = true /\
  os.has (Z.lor os.O_WRONLY os.O_CREATE) os.O_EXCL = false /\
  os.has (Z.lor os.O_WRONLY os.O_CREATE) os.O_WRONLY = true /\
  os.has (Z.lor os.O_WRONLY os.O_CREATE) os.O_TRUNC = false.
Proof. repeat split. Qed.

Lemma openFile_existing (cfg : Config.t) (w : World) (filename suffix : string)
      (f : os.File) :
  let dir := os.Join (Config.OutFolder cfg) filename in
  let path := os.Join dir (filename +:+ suffix) in
  os.files (fs w) !! dir = None ->
  os.files (fs w) !! path = Some f ->
  core.openFile cfg w filename suffix
  = (logged (call_openFile filename suffix) w,
     if os.may_write (fs w) f then Ok path else Err (os_error EACCES path)).
Proof.
  cbv zeta. intros Hdir Hpath.
  destruct openFile_flags as [Hc [Hx [Hw Ht]]].
  unfold core.openFile, os.MkdirAll, os.OpenFile. cbn [fs logged].
  rewrite Hdir, Hpath, Hc, Hx, Hw, Ht. cbn [andb orb].
  destruct (os.may_write (fs w) f); reflexivity.
Qed.

Lemma openFile_absent (cfg : Config.t) (w : World) (filename suffix : string) :
  let dir := os.Join (Config.OutFolder cfg) filename in
  let path := os.Join dir (filename +:+ suffix) in
  os.files (fs w) !! dir = None ->
  os.files (fs w) !! path = None ->
  core.openFile cfg w filename suffix
  = (with_fs (logged (call_openFile filename suffix) w)
       (os.with_files (fs w)
          (<[path := os.mk_file (Z.land core.perm_0444 (Z.lnot (os.umask (fs w)))) ""]>
             (os.files (fs w)))),
     Ok path).
Proof.
  cbv zeta. intros Hdir Hpath.
  destruct openFile_flags as [Hc _].
  unfold core.openFile, os.MkdirAll, os.OpenFile. cbn [fs logged].
  rewrite Hdir, Hpath, Hc. reflexivity.
Qed.

Lemma path_element_nonempty (s : string) : path_element s = true -> s <> "".
Proof. intros H ->. discriminate H. Qed.

Lemma plain_path_nonempty (s : string) : plain_path s = true -> s <> "".
Proof. intros H ->. discriminate H. Qed.

Lemma openFile_keeps_existing (cfg : Config.t) (w : World) (filename suffix : string)
      (f : os.File) :
  os.files (fs w) !! os.Join (os.Join (Config.OutFolder cfg) filename) (filename +:+ suffix)
  = Some f ->
  fs (fst (core.openFile cfg w filename suffix)) = fs w.
Proof.
  intros Hpath. destruct openFile_flags as [Hc [Hx [Hw Ht]]].
  unfold core.openFile, os.MkdirAll, os.OpenFile. cbn [fs logged].
  destruct (os.files (fs w) !! os.Join (Config.OutFolder cfg) filename); [reflexivity |].
  rewrite Hpath, Hc, Hx, Hw, Ht. cbn [andb orb].
  destruct (os.may_write (fs w) f); reflexivity.
Qed.

Lemma openFile_Ok_directory (cfg : Config.t) (w w' : World) (filename suffix fd : string) :
  core.openFile cfg w filename suffix = (w', Ok fd) ->
  os.files (fs w) !! os.Join (Config.OutFolder cfg) filename = None.
Proof.
  unfold core.openFile, os.MkdirAll. cbn [fs logged].
  destruct (os.files (fs w) !! os.Join (Config.OutFolder cfg) filename);
    [discriminate | reflexivity].
Qed.

(** C9, as the code has it. [openFile] opens with O_WRONLY|O_CREATE and mode
    0444, without O_EXCL; the output folder is a plain relative path and the
    table name one path element. A file that exists is never replaced by
    the call; the call fails when the process may not write the file, and
    where no regular file stands above it the call succeeds exactly when
    the process may write it. A file the call creates is empty and
    read-only, so a second [openFile] on it by an unprivileged process
    fails. After a wipe that went through nothing is left under the output
    root. *)
Theorem openFile_write_once (cfg : Config.t) (w : World) (filename suffix : string) :
  let dir := os.Join (Config.OutFolder cfg) filename in
  let path := os.Join dir (filename +:+ suffix) in
  plain_path (Config.OutFolder cfg) = true ->
  path_element filename = true ->
  (forall f, os.files (fs w) !! path = Some f ->
     fs (fst (core.openFile cfg w filename suffix)) = fs w /\
     (os.may_write (fs w) f = false ->
      exists e, snd (core.openFile cfg w filename suffix) = Err e) /\
     (no_file_above (fs w) path ->
      snd (core.openFile cfg w filename suffix)
      = if os.may_write (fs w) f then Ok path else Err (os_error EACCES path))) /\
  (os.files (fs w) !! path = None ->
   forall w' fd,
     core.openFile cfg w filename suffix = (w', Ok fd) ->
     fd = path /\
     os.files (fs w') !! path
     = Some (os.mk_file (Z.land core.perm_0444 (Z.lnot (os.umask (fs w)))) "") /\
     (os.superuser (fs w) = false ->
      snd (core.openFile cfg w' filename suffix) = Err (os_error EACCES path))) /\
  (Config.Wipe cfg = true ->
   forall w1,
     core.initOutFolder cfg w = (w1, None) ->
     (forall p, os.under (Config.OutFolder cfg) p = true ->
                os.files (fs w1) !! p = None) /\
     os.files (fs w1) !! path = None).
Proof.
  cbv zeta. intros Hroot Hname.
  apply plain_path_nonempty in Hroot. apply path_element_nonempty in Hname.
  set (dir := os.Join (Config.OutFolder cfg) filename).
  set (path := os.Join dir (filename +:+ suffix)).
  assert (Hdirne : dir <> "") by (apply Join_nonempty; exact Hname).
  assert (Hfile : filename +:+ suffix <> "") by (apply append_nonempty; exact Hname).
  assert (Hneq : path <> dir) by (apply Join_longer; assumption).
  split; [| split].
  - intros f Hpath. split; [now apply (openFile_keeps_existing cfg w filename suffix f) |].
    split.
    + intros Hro.
      destruct (os.files (fs w) !! dir) as [g |] eqn:Hdir.
      * exists (os_error ENOTDIR dir).
        unfold core.openFile, os.MkdirAll. cbn [fs logged]. fold dir. now rewrite Hdir.
      * exists (os_error EACCES path).
        rewrite (openFile_existing cfg w filename suffix f Hdir Hpath).
        cbn [snd]. fold dir. fold path. now rewrite Hro.
    + intros Habove.
      assert (Hdir : os.files (fs w) !! dir = None).
      { destruct (os.files (fs w) !! dir) as [g |] eqn:Hdir; [| reflexivity].
        exfalso.
        assert (Hp : String.prefix (dir +:+ "/") path = true).
        { unfold path, os.Join.
          apply String.eqb_neq in Hdirne, Hfile. rewrite Hdirne, Hfile.
          rewrite <- append_assoc. apply prefix_append. }
        rewrite (Habove dir) in Hp by (rewrite Hdir; eauto). discriminate Hp. }
      now rewrite (openFile_existing cfg w filename suffix f Hdir Hpath).
  - intros Hpath w' fd Hopen.
    pose proof (openFile_Ok_directory _ _ _ _ _ _ Hopen) as Hdir. fold dir in Hdir.
    rewrite (openFile_absent cfg w filename suffix Hdir Hpath) in Hopen.
    injection Hopen as <- <-. fold dir. fold path.
    split; [reflexivity |]. split; [cbn; apply lookup_insert_eq |].
    intros Huser.
    rewrite (openFile_existing cfg _ filename suffix
               (os.mk_file (Z.land core.perm_0444 (Z.lnot (os.umask (fs w)))) "")).
    + cbn [snd]. unfold os.may_write.
      cbn [os.superuser os.mode os.umask os.with_files fs with_fs logged].
      rewrite Huser, created_mode_read_only. reflexivity.
    + cbn. rewrite lookup_insert_ne by exact Hneq. exact Hdir.
    + cbn. apply lookup_insert_eq.
  - intros Hwipe w1 Hinit.
    assert (Hall : forall p, os.under (Config.OutFolder cfg) p = true ->
                             os.files (fs w1) !! p = None).
    { intros p Hp.
      pose proof (RemoveAll_under (fs w) _ _ Hroot Hp) as R.
      unfold core.initOutFolder in Hinit. rewrite Hwipe in Hinit. cbn [fs logged] in Hinit.
      destruct (os.RemoveAll (fs w) (Config.OutFolder cfg)) as [fs' [err |]];
        [discriminate Hinit |].
      injection Hinit as <- _. exact R. }
    split; [exact Hall |]. apply Hall.
    unfold path, dir. rewrite Join_assoc by assumption.
    apply under_Join; [exact Hroot |]. apply Join_nonempty. exact Hfile.
Qed.

(** C9, as stated, fails: the model file of table users exists and is
    writable; [openFile] succeeds on it, and rendering writes over its
    beginning. *)
Lemma openFile_opens_existing_writable_file :
  os.files (fs world_with_writable_file) !! "out/users/users_gen.go"
  = Some (os.mk_file 420 "// edited by hand, keep") /\
  snd (core.openFile example_config world_with_writable_file "users" "_gen.go")
  = Ok "out/users/users_gen.go" /\
  os.files
    (fs (fst (core.renderInto example_config (Config.TableRenderer example_config)
                              (call_Render "users") "_gen.go"
                              "unable to generate output" users_data
                              world_with_writable_file)))
    !! "out/users/users_gen.go"
  = Some (os.mk_file 420 "package modelsand, keep").
Proof. repeat split; vm_compute; reflexivity. Qed.

Lemma openFile_write_once_witness :
  let w' := fst (core.openFile example_config empty_world "users" "_gen.go") in
  os.files (fs w') !! "out/users/users_gen.go" = Some (os.mk_file 292 "") /\
  snd (core.openFile example_config w' "users" "_gen.go")
  = Err (os_error EACCES "out/users/users_gen.go").
Proof.
  cbv zeta.
  destruct (openFile_write_once example_config empty_world "users" "_gen.go"
              eq_refl eq_refl) as [_ [Hnew _]].
  destruct (Hnew eq_refl
                 (fst (core.openFile example_config empty_world "users" "_gen.go"))
                 "out/users/users_gen.go" eq_refl) as [_ [Hmode Hagain]].
  split; [exact Hmode | exact (Hagain eq_refl)].
Defined.

Lemma checkPKeys_collects_all_witness :
  core.checkPKeys [users_table; events_table; logs_table]
  = Some (errors_New "primary key missing in tables (events, logs)").
Proof.
  apply (proj1 (proj2 (checkPKeys_collects_all [users_table; events_table; logs_table]))).
  discriminate.
Defined.

Lemma Run_no_tables_witness :
  exists s' w',
    core.Run example_discovery (state_new "warehouse") empty_world
    = (s', w',
       Returned (Some (errors_Wrap (errors_New "no tables found in database")
                                   "unable to initialize tables"))) /\
    log w' = log empty_world ++ [call_Open; call_Tables] /\
    fs w' = fs empty_world /\
    (forall c, In c (log w') ->
       In c (log empty_world) \/ c = call_Open \/ c = call_Tables).
Proof.
  exact (Run_no_tables MySQLDriver.t MySQLDriver_Interface example_discovery
           (state_new "warehouse") empty_world driver_open eq_refl eq_refl).
Defined.

Lemma TableNames_allow_deny_witness :
  MySQLDriver.TableNames env_up driver_open "app" ["users"; "ghost"; "audit"] ["users"]
  = Returned (Ok ["users"]) /\
  MySQLDriver.TableNames env_up driver_open "app" [] ["users"]
  = Returned (Ok ["roles"]).
Proof.
  split.
  - destruct (TableNames_allow_deny env_up driver_open "app"
                ["users"; "ghost"; "audit"] ["users"]) as [_ [Hlive _]].
    destruct (Hlive eq_refl) as [Hallow _].
    apply Hallow. discriminate.
  - destruct (TableNames_allow_deny env_up driver_open "app" [] ["users"])
      as [_ [Hlive _]].
    destruct (Hlive eq_refl) as [_ [Hdeny _]].
    apply Hdeny; [reflexivity | discriminate].
Defined.

Lemma Open_checks_arguments_only_witness :
  core.Run example_discovery (state_new "app") (mk_world env_bad_dsn (os.mk_fs ∅ 18 false) [])
  = (state_new "app", mk_world env_bad_dsn (os.mk_fs ∅ 18 false) [call_Open],
     Returned (Some (errors_Wrap (sql_error InvalidDSN)
                                 "unable to connect to the database"))).
Proof.
  destruct (Open_checks_arguments_only env_bad_dsn driver_new) as [_ [_ [_ Hrun]]].
  exact (Hrun MySQLDriver.t MySQLDriver_Interface example_discovery (state_new "app")
              (mk_world env_bad_dsn (os.mk_fs ∅ 18 false) []) driver_new
              (sql_error InvalidDSN) eq_refl).
Defined.

(** ** Worked examples *)

Example tableNamesQuery_allowlist :
  MySQLDriver.tableNamesQuery "app" ["users"; "roles"] ["audit"]
  = ("select table_name from information_schema.tables where table_schema = ? and table_type = 'BASE TABLE' and table_name in (?,?);",
     ["app"; "users"; "roles"]).
Proof. reflexivity. Qed.

Example tableNamesQuery_denylist :
  MySQLDriver.tableNamesQuery "app" [] ["audit"]
  = ("select table_name from information_schema.tables where table_schema = ? and table_type = 'BASE TABLE' and table_name not in (?);",
     ["app"; "audit"]).
Proof. reflexivity. Qed.

Example TableNames_all_base_tables :
  MySQLDriver.TableNames env_up driver_open "app" [] [] = Returned (Ok ["users"; "roles"]).
Proof. reflexivity. Qed.

Example TableNames_server_down :
  MySQLDriver.TableNames env_down driver_open "app" [] []
  = Returned (Err (sql_error ConnectionRefused)).
Proof. reflexivity. Qed.

Example translate_json_not_null :
  let c := drivers.TranslateColumnType false
             (Column.mk "doc" "json" "json" "" false false false "" "") in
  (Column.PkgName c, Column.TypeName c) = ("github.com/vattle/sqlboiler/types", "JSON").
Proof. reflexivity. Qed.

Example checkPKeys_all_keyed : core.checkPKeys [users_table] = None.
Proof. reflexivity. Qed.

Example Run_renders_users :
  let '(_, w', r) :=
    core.Run (fun _ _ _ _ _ => Ok [users_table]) (state_new "app") empty_world in
  r = Returned None /\
  log w' = [call_Open; call_Tables; call_checkPKeys; call_initOutFolder;
            call_openFile "users" "_gen.go"; call_Render "users"] /\
  os.files (fs w') !! "out/users/users_gen.go" = Some (os.mk_file 292 "package models").
Proof. vm_compute. repeat split. Qed.

(** ** The statement of [TableNames] *)

Lemma count_char_append (a : ascii) (s t : string) :
  count_char a (s +:+ t) = (count_char a s + count_char a t)%nat.
Proof.
  induction s as [| b s IH]; [reflexivity |].
  change (count_char a (String b (s +:+ t))
          = (count_char a (String b s) + count_char a t)%nat).
  cbn [count_char]. rewrite IH. lia.
Qed.

Lemma count_placeholders (n : nat) :
  count_char "?" (slice_from1 (strings_Repeat ",?" (S n))) = S n.
Proof.
  change (slice_from1 (strings_Repeat ",?" (S n))) with ("?" +:+ strings_Repeat ",?" n).
  rewrite count_char_append. change (count_char "?" "?") with 1%nat.
  induction n as [| n IH]; [reflexivity |].
  change (strings_Repeat ",?" (S n)) with (",?" +:+ strings_Repeat ",?" n).
  rewrite count_char_append. change (count_char "?" ",?") with 1%nat. lia.
Qed.

(** X1. The statement [TableNames] sends has exactly one placeholder per
    argument, whatever the two lists are. *)
Theorem tableNamesQuery_placeholders (schema : string) (whitelist blacklist : list string) :
  count_char "?" (fst (MySQLDriver.tableNamesQuery schema whitelist blacklist))
  = List.length (snd (MySQLDriver.tableNamesQuery schema whitelist blacklist)).
Proof.
  unfold MySQLDriver.tableNamesQuery.
  destruct whitelist as [| a wl]; [destruct blacklist as [| b bl] |]; cbn [Nat.ltb Nat.leb List.length fst snd].
  - reflexivity.
  - unfold sql.not_in_clause. rewrite !count_char_append, count_placeholders.
    change (count_char "?" sql.select_base_tables) with 1%nat.
    change (count_char "?" " and table_name not in (") with 0%nat.
    change (count_char "?" ");") with 0%nat.
    rewrite length_app. cbn [List.length]. lia.
  - unfold sql.in_clause. rewrite !count_char_append, count_placeholders.
    change (count_char "?" sql.select_base_tables) with 1%nat.
    change (count_char "?" " and table_name in (") with 0%nat.
    change (count_char "?" ");") with 0%nat.
    rewrite length_app. cbn [List.length]. lia.
Qed.

(** X2. With the same non-empty list once as allowlist and once as denylist, the
    two answers split the base tables of the schema: each base table is in
    one of them and none is in both. *)
Theorem TableNames_allow_deny_partition (env0 : sql.Env) (m : MySQLDriver.t)
        (schema : string) (names allowed denied : list string) :
  MySQLDriver.usable env0 m = true ->
  names <> [] ->
  MySQLDriver.TableNames env0 m schema names [] = Returned (Ok allowed) ->
  MySQLDriver.TableNames env0 m schema [] names = Returned (Ok denied) ->
  forall n,
    (In n (sql.base_tables (sql.server env0) schema) <-> In n allowed \/ In n denied) /\
    ~ (In n allowed /\ In n denied).
Proof.
  intros Hu Hne Ha Hd n.
  rewrite (TableNames_usable _ _ _ _ _ Hu) in Ha.
  rewrite (TableNames_usable _ _ _ _ _ Hu) in Hd.
  destruct names as [| x names]; [contradiction |].
  injection Ha as <-. injection Hd as <-.
  rewrite !filter_In.
  cbv beta.
  match goal with |- context [negb ?b] => destruct b end; cbn; intuition congruence.
Qed.

Lemma TableNames_allow_deny_partition_witness :
  (In "roles" (sql.base_tables (sql.server env_up) "app")
   <-> In "roles" ["users"] \/ In "roles" ["roles"]) /\
  ~ (In "roles" ["users"] /\ In "roles" ["roles"]).
Proof.
  exact (TableNames_allow_deny_partition env_up driver_open "app" ["users"; "ghost"]
           ["users"] ["roles"] eq_refl ltac:(discriminate) eq_refl eq_refl "roles").
Defined.

(** ** Columns, primary keys and foreign keys *)

Lemma length_append (s t : string) :
  String.length (s +:+ t) = (String.length s + String.length t)%nat.
Proof.
  induction s as [| a s IH]; [reflexivity |].
  change (S (String.length (s +:+ t)) = S (String.length s + String.length t)).
  now rewrite IH.
Qed.

Lemma substring_all (s : string) : String.substring 0 (String.length s) s = s.
Proof. induction s as [| a s IH]; [reflexivity |]. cbn. now rewrite IH. Qed.

Lemma substring_skip (pre t : string) (n : nat) :
  String.substring (String.length pre) n (pre +:+ t) = String.substring 0 n t.
Proof.
  induction pre as [| a pre IH]; [reflexivity |].
  change (String.substring (S (String.length pre)) n (String a (pre +:+ t))
          = String.substring 0 n t).
  cbn [String.substring]. exact IH.
Qed.

Lemma substring_split (s : string) (k : nat) :
  (k <= String.length s)%nat ->
  s = String.substring 0 k s +:+ String.substring k (String.length s - k) s.
Proof.
  revert k. induction s as [| a s IH]; intros k Hk.
  - destruct k; [reflexivity | cbn in Hk; lia].
  - destruct k as [| k].
    + change (String a s = String.substring 0 (String.length (String a s)) (String a s)).
      now rewrite substring_all.
    + cbn [String.length] in Hk.
      change (String a s
              = String a (String.substring 0 k s
                          +:+ String.substring k (String.length s - k) s)).
      f_equal. apply IH. lia.
Qed.

Lemma like_unsigned_suffix (s : string) :
  information_schema.like_unsigned s = true <-> exists pre, s = pre +:+ " unsigned".
Proof.
  unfold information_schema.like_unsigned. cbv zeta. split.
  - intros H. apply andb_true_iff in H. destruct H as [Hlen Heq].
    apply Nat.leb_le in Hlen. apply String.eqb_eq in Heq.
    change (String.length " unsigned") with 9%nat in *.
    exists (String.substring 0 (String.length s - 9) s).
    pose proof (substring_split s (String.length s - 9) ltac:(lia)) as Hsp.
    replace (String.length s - (String.length s - 9))%nat with 9%nat in Hsp by lia.
    now rewrite Heq in Hsp.
  - intros [pre ->]. rewrite length_append. apply andb_true_iff. split.
    + apply Nat.leb_le. lia.
    + replace (String.length pre + String.length " unsigned" - String.length " unsigned")%nat
        with (String.length pre) by lia.
      rewrite substring_skip. apply String.eqb_refl.
Qed.

Lemma Columns_usable (env0 : sql.Env) (cat : information_schema.Catalog)
      (m : MySQLDriver.t) (schema tableName : string) :
  MySQLDriver.usable env0 m = true ->
  MySQLDriver.Columns env0 cat m schema tableName
  = Returned (Ok (map MySQLDriver.scanColumn
                      (information_schema.select_columns cat tableName schema))).
Proof.
  unfold MySQLDriver.usable, MySQLDriver.Columns, sql.connect.
  destruct (MySQLDriver.dbConn m) as [d |]; [| discriminate].
  intros Hu. apply andb_true_iff in Hu. destruct Hu as [Hu Hacc].
  apply andb_true_iff in Hu. destruct Hu as [Hopen Hreach].
  apply negb_true_iff in Hopen. now rewrite Hopen, Hreach, Hacc.
Qed.

Lemma connect_usable (env0 : sql.Env) (m : MySQLDriver.t) (d : sql.DB) :
  MySQLDriver.dbConn m = Some d ->
  (MySQLDriver.usable env0 m = true <-> sql.connect env0 d = None).
Proof.
  intros Hd. unfold MySQLDriver.usable, sql.connect. rewrite Hd.
  destruct (sql.closed d), (sql.reachable (sql.server env0)),
    (sql.accepts_credentials (sql.server env0)); cbn; split; congruence.
Qed.

(** X3. What [Columns] hands back: one column per catalog column of the table, in
    catalog order, not yet translated (type name and package empty). The
    default is never the text NULL, and the unsigned flag is set exactly when
    the full type ends in " unsigned". *)
Theorem Columns_untranslated (env0 : sql.Env) (cat : information_schema.Catalog)
        (m : MySQLDriver.t) (schema tableName : string) :
  MySQLDriver.usable env0 m = true ->
  exists cols,
    MySQLDriver.Columns env0 cat m schema tableName = Returned (Ok cols) /\
    map Column.Name cols
    = map information_schema.column_name
          (List.filter
             (fun c => String.eqb (information_schema.c_table_name c) tableName
                       && String.eqb (information_schema.c_table_schema c) schema)
             (information_schema.columns cat)) /\
    forall c, In c cols ->
      Column.TypeName c = "" /\ Column.PkgName c = "" /\
      Column.Default c <> "NULL" /\
      (Column.Unsigned c = true <-> exists pre, Column.FullDBType c = pre +:+ " unsigned").
Proof.
  intros Hu. eexists. split; [now apply Columns_usable |]. split.
  - unfold information_schema.select_columns. rewrite !map_map. reflexivity.
  - intros c Hc. apply in_map_iff in Hc. destruct Hc as [r [<- Hr]].
    unfold information_schema.select_columns in Hr.
    apply in_map_iff in Hr. destruct Hr as [row [<- _]].
    unfold MySQLDriver.scanColumn. cbn. repeat split.
    + destruct (if String.eqb (information_schema.extra row) "auto_increment"
                then Some "auto_increment"
                else information_schema.column_default row) as [v |]; [| discriminate].
      destruct (String.eqb v "NULL") eqn:E; cbn; [discriminate |].
      now apply String.eqb_neq.
    + intros Hun. now apply like_unsigned_suffix.
    + intros Hex. now apply like_unsigned_suffix.
Qed.

Ltac column_fields :=
  cbn [Column.Name Column.Nullable Column.DBType Column.FullDBType Column.Default
       Column.Unsigned Column.Unique Column.PkgName Column.TypeName
       Column.setPkgName Column.setTypeName] in *.

Lemma TranslateColumnType_package (TinyintAsBool : bool) (c : Column.t) :
  Column.PkgName c = "" ->
  Column.PkgName (drivers.TranslateColumnType TinyintAsBool c)
  = package_of (Column.DBType c) (Column.Nullable c).
Proof.
  destruct c as [name full raw dflt nullable unsigned unique pkg ty].
  column_fields. intros ->. unfold package_of.
  destruct (case_of raw ["json"]) eqn:J.
  { apply case_of_In in J. destruct J as [<- | []]. destruct nullable; reflexivity. }
  destruct nullable.
  { unfold drivers.TranslateColumnType. cbv zeta. column_fields. rewrite J.
    split_switch; reflexivity. }
  destruct (case_of raw ["date"; "datetime"; "timestamp"; "time"]) eqn:Tm.
  { apply case_of_In in Tm.
    destruct Tm as [<- | [<- | [<- | [<- | []]]]]; reflexivity. }
  unfold drivers.TranslateColumnType. cbv zeta. column_fields. rewrite J, Tm.
  split_switch; reflexivity.
Qed.

(** X4. Translating what [Columns] returns: the package of a column is the JSON
    types package for json, else the null package when the column is
    nullable, else time for the temporal types, else none; so the package
    is empty exactly for the non-nullable columns that are neither temporal
    nor json. *)
Theorem Columns_then_translate_package (env0 : sql.Env) (cat : information_schema.Catalog)
        (m : MySQLDriver.t) (schema tableName : string) (cols : list Column.t)
        (TinyintAsBool : bool) :
  MySQLDriver.Columns env0 cat m schema tableName = Returned (Ok cols) ->
  forall c, In c cols ->
    let c' := drivers.TranslateColumnType TinyintAsBool c in
    Column.PkgName c' = package_of (Column.DBType c) (Column.Nullable c) /\
    In (Column.PkgName c') [""; "time"; drivers.null_v6; drivers.sqlboiler_types] /\
    (Column.PkgName c' = "" <->
     Column.Nullable c = false /\
     ~ In (Column.DBType c) ["json"; "date"; "datetime"; "timestamp"; "time"]).
Proof.
  intros Hcols c Hc. cbv zeta.
  assert (Hpkg : Column.PkgName c = "").
  { unfold MySQLDriver.Columns in Hcols.
    destruct (MySQLDriver.dbConn m); [| discriminate].
    destruct (sql.connect env0 d); [discriminate |].
    injection Hcols as <-. apply in_map_iff in Hc. now destruct Hc as [r [<- _]]. }
  rewrite (TranslateColumnType_package _ _ Hpkg). split; [reflexivity |].
  unfold package_of.
  destruct (case_of (Column.DBType c) ["json"]) eqn:J.
  { apply case_of_In in J. split; [cbn; tauto |]. split; [discriminate |].
    intros [_ Hn]. exfalso. apply Hn. destruct J as [<- | []]. now left. }
  destruct (Column.Nullable c).
  { split; [cbn; tauto |]. split; [discriminate | intros [E _]; discriminate E]. }
  destruct (case_of (Column.DBType c) ["date"; "datetime"; "timestamp"; "time"]) eqn:Tm.
  { apply case_of_In in Tm. split; [cbn; tauto |]. split; [discriminate |].
    intros [_ Hn]. exfalso. apply Hn. now right. }
  split; [cbn; tauto |]. split; [| reflexivity].
  intros _. split; [reflexivity |]. intros [E | Hin].
  - assert (Hj : case_of (Column.DBType c) ["json"] = true)
      by (apply case_of_In; left; exact E).
    congruence.
  - assert (Ht : case_of (Column.DBType c) ["date"; "datetime"; "timestamp"; "time"] = true)
      by (apply case_of_In; exact Hin).
    congruence.
Qed.

Lemma Columns_then_translate_package_witness :
  let email := Column.mk "email" "varchar(255)" "varchar" "" true false false "" "" in
  Column.PkgName (drivers.TranslateColumnType false email) = "gopkg.in/nullbio/null.v6" /\
  In (Column.PkgName (drivers.TranslateColumnType false email))
     [""; "time"; drivers.null_v6; drivers.sqlboiler_types].
Proof.
  cbv zeta.
  destruct (Columns_then_translate_package env_up example_schema driver_open
              "app" "users" _ false eq_refl
              (Column.mk "email" "varchar(255)" "varchar" "" true false false "" "")
              ltac:(right; left; reflexivity)) as [Hp [Hin _]].
  split; [exact Hp | exact Hin].
Defined.

Lemma Columns_untranslated_witness :
  exists cols,
    MySQLDriver.Columns env_up example_schema driver_open "app" "users"
    = Returned (Ok cols) /\
    map Column.Name cols = ["id"; "email"; "status"].
Proof.
  destruct (Columns_untranslated env_up example_schema driver_open "app" "users" eq_refl)
    as [cols [Hc [Hn _]]].
  exists cols. split; [exact Hc | exact Hn].
Defined.

Lemma PrimaryKeyInfo_usable (env0 : sql.Env) (cat : information_schema.Catalog)
      (m : MySQLDriver.t) (schema tableName : string) :
  MySQLDriver.usable env0 m = true ->
  MySQLDriver.PrimaryKeyInfo env0 cat m schema tableName
  = Returned
      (Ok (match information_schema.select_primary_key cat tableName schema with
           | [] => None
           | name :: _ =>
               Some (PrimaryKey.mk name
                       (information_schema.select_key_columns cat tableName name schema))
           end)).
Proof.
  intros Hu. unfold MySQLDriver.PrimaryKeyInfo.
  destruct (MySQLDriver.dbConn m) as [d |] eqn:Hd;
    [| unfold MySQLDriver.usable in Hu; rewrite Hd in Hu; discriminate].
  apply (connect_usable env0 m d Hd) in Hu. rewrite Hu.
  destruct (information_schema.select_primary_key cat tableName schema); reflexivity.
Qed.

Lemma select_primary_key_In (cat : information_schema.Catalog)
      (tableName schema name : string) :
  In name (information_schema.select_primary_key cat tableName schema) <->
  exists tc, In tc (information_schema.table_constraints cat) /\
             is_primary_key_of tableName schema tc /\
             information_schema.tc_constraint_name tc = name.
Proof.
  unfold information_schema.select_primary_key, is_primary_key_of.
  rewrite in_map_iff. split.
  - intros [tc [Hn Hin]]. apply filter_In in Hin. destruct Hin as [Hin Hc].
    apply andb_true_iff in Hc. destruct Hc as [Hc Hs].
    apply andb_true_iff in Hc. destruct Hc as [Ht Hp].
    apply String.eqb_eq in Hs, Ht, Hp. exists tc. tauto.
  - intros [tc [Hin [[Ht [Hs Hp]] Hn]]]. exists tc. split; [exact Hn |].
    apply filter_In. split; [exact Hin |].
    rewrite Ht, Hs, Hp, !String.eqb_refl. reflexivity.
Qed.

(** X5. [PrimaryKeyInfo] on a connection that works never fails. It returns the
    nil key exactly when the catalog has no PRIMARY KEY constraint for the
    table in the schema; a key it returns carries the name of such a
    constraint and, as columns, the key-column-usage entries of the table
    under that name. *)
Theorem PrimaryKeyInfo_key_or_none (env0 : sql.Env) (cat : information_schema.Catalog)
        (m : MySQLDriver.t) (schema tableName : string) :
  MySQLDriver.usable env0 m = true ->
  exists pkey,
    MySQLDriver.PrimaryKeyInfo env0 cat m schema tableName = Returned (Ok pkey) /\
    (pkey = None <->
     forall tc, In tc (information_schema.table_constraints cat) ->
                ~ is_primary_key_of tableName schema tc) /\
    forall key, pkey = Some key ->
      (exists tc, In tc (information_schema.table_constraints cat) /\
                  is_primary_key_of tableName schema tc /\
                  information_schema.tc_constraint_name tc = PrimaryKey.Name key) /\
      forall column,
        In column (PrimaryKey.Columns key) <->
        exists k, In k (information_schema.key_column_usage cat) /\
                  information_schema.kcu_table_name k = tableName /\
                  information_schema.kcu_table_schema k = schema /\
                  information_schema.kcu_constraint_name k = PrimaryKey.Name key /\
                  information_schema.kcu_column_name k = column.
Proof.
  intros Hu. eexists. split; [now apply PrimaryKeyInfo_usable |].
  destruct (information_schema.select_primary_key cat tableName schema)
    as [| name names] eqn:E.
  - split.
    + split; [| reflexivity]. intros _ tc Hin Hpk.
      assert (Hn : In (information_schema.tc_constraint_name tc)
                      (information_schema.select_primary_key cat tableName schema))
        by (apply select_primary_key_In; exists tc; tauto).
      rewrite E in Hn. destruct Hn.
    + intros key Hkey. discriminate Hkey.
  - assert (Hn : In name (information_schema.select_primary_key cat tableName schema))
      by (rewrite E; now left).
    apply select_primary_key_In in Hn.
    split.
    + split; [discriminate |]. intros Hnone. exfalso.
      destruct Hn as [tc [Hin [Hpk _]]]. exact (Hnone tc Hin Hpk).
    + intros key Hkey. injection Hkey as <-. cbn [PrimaryKey.Name PrimaryKey.Columns].
      split; [exact Hn |].
      intros column. unfold information_schema.select_key_columns.
      rewrite in_map_iff. split.
      * intros [k [Hc Hin]]. apply filter_In in Hin. destruct Hin as [Hin Hf].
        apply andb_true_iff in Hf. destruct Hf as [Hf Hs].
        apply andb_true_iff in Hf. destruct Hf as [Ht Hcn].
        apply String.eqb_eq in Hs, Ht, Hcn. exists k. tauto.
      * intros [k [Hin [Ht [Hs [Hcn Hc]]]]]. exists k. split; [exact Hc |].
        apply filter_In. split; [exact Hin |].
        rewrite Ht, Hs, Hcn, !String.eqb_refl. reflexivity.
Qed.

Lemma PrimaryKeyInfo_key_or_none_witness :
  exists pkey,
    MySQLDriver.PrimaryKeyInfo env_up example_schema driver_open "app" "notes"
    = Returned (Ok pkey) /\
    (pkey = None <->
     forall tc, In tc (information_schema.table_constraints example_schema) ->
                ~ is_primary_key_of "notes" "app" tc).
Proof.
  destruct (PrimaryKeyInfo_key_or_none env_up example_schema driver_open "app" "notes"
              eq_refl) as [pkey [Hk [Hnone _]]].
  exists pkey. split; [exact Hk | exact Hnone].
Defined.

Lemma is_unique_by (cat : information_schema.Catalog) (c : information_schema.column_row)
      (tc : information_schema.constraint_row) (k : information_schema.key_usage_row) :
  In tc (information_schema.table_constraints cat) ->
  In k (information_schema.key_column_usage cat) ->
  information_schema.unique_through cat c tc k = true ->
  information_schema.is_unique cat c = true.
Proof.
  intros Htc Hk Hu. unfold information_schema.is_unique.
  apply existsb_exists. exists tc. split; [exact Htc |].
  apply existsb_exists. exists k. split; [exact Hk | exact Hu].
Qed.

(** X6. A primary key of a single column makes that column unique: when
    [PrimaryKeyInfo] returns a key with exactly one column, every column of
    that name [Columns] returns for the table has its unique flag set. *)
Theorem single_column_key_is_unique (env0 : sql.Env) (cat : information_schema.Catalog)
        (m : MySQLDriver.t) (schema tableName column : string)
        (key : PrimaryKey.t) (cols : list Column.t) :
  MySQLDriver.PrimaryKeyInfo env0 cat m schema tableName = Returned (Ok (Some key)) ->
  PrimaryKey.Columns key = [column] ->
  MySQLDriver.Columns env0 cat m schema tableName = Returned (Ok cols) ->
  forall c, In c cols -> Column.Name c = column -> Column.Unique c = true.
Proof.
  intros Hpk Hone Hcols c Hc Hname.
  unfold MySQLDriver.PrimaryKeyInfo in Hpk. unfold MySQLDriver.Columns in Hcols.
  destruct (MySQLDriver.dbConn m) as [d |]; [| discriminate].
  destruct (sql.connect env0 d); [discriminate |].
  injection Hcols as <-.
  destruct (information_schema.select_primary_key cat tableName schema)
    as [| name names] eqn:E; [discriminate |].
  injection Hpk as <-. cbn [PrimaryKey.Columns] in Hone.
  assert (Hn : In name (information_schema.select_primary_key cat tableName schema))
    by (rewrite E; now left).
  apply select_primary_key_In in Hn.
  destruct Hn as [tc [Htc [[Ht [Hs Hp]] Hnm]]].
  unfold information_schema.select_key_columns in Hone.
  destruct (List.filter _ (information_schema.key_column_usage cat))
    as [| k [| k2 rest]] eqn:F; try discriminate Hone.
  cbn in Hone. injection Hone as Hk.
  assert (Hkin : In k (List.filter
                         (fun k => String.eqb (information_schema.kcu_table_name k) tableName
                                   && String.eqb (information_schema.kcu_constraint_name k) name
                                   && String.eqb (information_schema.kcu_table_schema k) schema)
                         (information_schema.key_column_usage cat)))
    by (rewrite F; now left).
  apply filter_In in Hkin. destruct Hkin as [Hkin Hf].
  apply andb_true_iff in Hf. destruct Hf as [Hf Hks].
  apply andb_true_iff in Hf. destruct Hf as [Hkt Hkn].
  apply String.eqb_eq in Hks, Hkt, Hkn.
  apply in_map_iff in Hc. destruct Hc as [r [<- Hr]].
  unfold information_schema.select_columns in Hr.
  apply in_map_iff in Hr. destruct Hr as [row [<- Hrow]].
  apply filter_In in Hrow. destruct Hrow as [_ Hrow].
  apply andb_true_iff in Hrow. destruct Hrow as [Hrt _]. apply String.eqb_eq in Hrt.
  cbn in Hname. cbn.
  apply (is_unique_by cat row tc k Htc Hkin).
  unfold information_schema.unique_through, information_schema.count_key_columns.
  rewrite Hnm, Hkn, Ht, Hkt, Hs, Hks, Hname, Hk, Hrt, Hp, !String.eqb_refl.
  cbn [andb orb].
  rewrite (List.filter_ext
             _
             (fun k => String.eqb (information_schema.kcu_table_name k) tableName
                       && String.eqb (information_schema.kcu_constraint_name k) name
                       && String.eqb (information_schema.kcu_table_schema k) schema)).
  - now rewrite F.
  - intros k'.
    destruct (String.eqb (information_schema.kcu_table_schema k') schema),
      (String.eqb (information_schema.kcu_table_name k') tableName),
      (String.eqb (information_schema.kcu_constraint_name k') name); reflexivity.
Qed.

Lemma single_column_key_is_unique_witness :
  Column.Unique (Column.mk "id" "int(10) unsigned" "int" "auto_increment"
                           false true true "" "") = true /\
  MySQLDriver.PrimaryKeyInfo env_up example_schema driver_open "app" "users"
  = Returned (Ok (Some (PrimaryKey.mk "PRIMARY" ["id"]))).
Proof.
  split; [| reflexivity].
  exact (single_column_key_is_unique env_up example_schema driver_open "app" "users" "id"
           (PrimaryKey.mk "PRIMARY" ["id"]) _ eq_refl eq_refl eq_refl
           (Column.mk "id" "int(10) unsigned" "int" "auto_increment" false true true "" "")
           ltac:(left; reflexivity) eq_refl).
Defined.

(** X7. A failed connection is an error for every metadata method, never data:
    with the handle closed, the server unreachable or the credentials
    refused, [Columns], [PrimaryKeyInfo] and [ForeignKeyInfo] return that
    failure itself, unwrapped; in particular [PrimaryKeyInfo] does not
    report it as a table without key, nor the other two as an empty list. *)
Theorem metadata_methods_report_connection_failure
        (env0 : sql.Env) (cat : information_schema.Catalog) (m : MySQLDriver.t)
        (d : sql.DB) (schema tableName : string) :
  MySQLDriver.dbConn m = Some d ->
  MySQLDriver.usable env0 m = false ->
  exists f,
    In f [DatabaseClosed; ConnectionRefused; AccessDenied] /\
    MySQLDriver.Columns env0 cat m schema tableName = Returned (Err (sql_error f)) /\
    MySQLDriver.PrimaryKeyInfo env0 cat m schema tableName = Returned (Err (sql_error f)) /\
    MySQLDriver.ForeignKeyInfo env0 cat m schema tableName = Returned (Err (sql_error f)).
Proof.
  intros Hd Hu.
  unfold MySQLDriver.Columns, MySQLDriver.PrimaryKeyInfo, MySQLDriver.ForeignKeyInfo.
  unfold MySQLDriver.usable in Hu. rewrite Hd in *. unfold sql.connect.
  destruct (sql.closed d).
  { exists DatabaseClosed. cbn. tauto. }
  destruct (sql.reachable (sql.server env0)).
  2: { exists ConnectionRefused. cbn. tauto. }
  destruct (sql.accepts_credentials (sql.server env0)); [discriminate Hu |].
  exists AccessDenied. cbn. tauto.
Qed.

Lemma metadata_methods_report_connection_failure_witness :
  exists f,
    In f [DatabaseClosed; ConnectionRefused; AccessDenied] /\
    MySQLDriver.Columns env_down example_schema driver_open "app" "users"
    = Returned (Err (sql_error f)) /\
    MySQLDriver.PrimaryKeyInfo env_down example_schema driver_open "app" "users"
    = Returned (Err (sql_error f)) /\
    MySQLDriver.ForeignKeyInfo env_down example_schema driver_open "app" "users"
    = Returned (Err (sql_error f)).
Proof.
  exact (metadata_methods_report_connection_failure env_down example_schema driver_open
           (sql.mk_db example_dsn false) "app" "users" eq_refl eq_refl).
Defined.

(** X8. From the catalog to the key check: a table assembled with the key that
    [PrimaryKeyInfo] returned passes [checkPKeys] exactly when the catalog has
    a PRIMARY KEY constraint for it; whether it is a join table, and what
    columns and foreign keys it has, plays no part. *)
Theorem checkPKeys_after_PrimaryKeyInfo
        (env0 : sql.Env) (cat : information_schema.Catalog) (m : MySQLDriver.t)
        (schema tableName : string) (pkey : option PrimaryKey.t)
        (cols : list Column.t) (fkeys : list ForeignKey.t) (isJoin : bool) :
  MySQLDriver.PrimaryKeyInfo env0 cat m schema tableName = Returned (Ok pkey) ->
  (core.checkPKeys [Table.mk tableName cols pkey fkeys isJoin] = None <->
   exists tc, In tc (information_schema.table_constraints cat) /\
              is_primary_key_of tableName schema tc) /\
  (core.checkPKeys [Table.mk tableName cols pkey fkeys isJoin] <> None ->
   core.checkPKeys [Table.mk tableName cols pkey fkeys isJoin]
   = Some (errors_New ("primary key missing in tables (" +:+ tableName +:+ ")"))).
Proof.
  intros Hpk.
  assert (Hu : MySQLDriver.usable env0 m = true).
  { unfold MySQLDriver.PrimaryKeyInfo in Hpk.
    destruct (MySQLDriver.dbConn m) as [d |] eqn:Hd; [| discriminate].
    apply (connect_usable env0 m d Hd).
    destruct (sql.connect env0 d); [discriminate | reflexivity]. }
  rewrite (PrimaryKeyInfo_usable _ _ _ _ _ Hu) in Hpk. injection Hpk as <-.
  destruct (information_schema.select_primary_key cat tableName schema)
    as [| name names] eqn:E.
  - split; [| reflexivity].
    split; [discriminate |].
    intros [tc [Hin Htc]]. exfalso.
    assert (Hn : In (information_schema.tc_constraint_name tc)
                    (information_schema.select_primary_key cat tableName schema))
      by (apply select_primary_key_In; exists tc; tauto).
    rewrite E in Hn. destruct Hn.
  - split; [| intros Hc; now elim Hc].
    split; [| reflexivity]. intros _.
    assert (Hn : In name (information_schema.select_primary_key cat tableName schema))
      by (rewrite E; now left).
    apply select_primary_key_In in Hn. destruct Hn as [tc [Hin [Htc _]]].
    exists tc. tauto.
Qed.

Lemma checkPKeys_after_PrimaryKeyInfo_witness :
  core.checkPKeys [Table.mk "notes" [] None [] false]
  = Some (errors_New "primary key missing in tables (notes)").
Proof.
  apply (proj2 (checkPKeys_after_PrimaryKeyInfo env_up example_schema driver_open
                  "app" "notes" None [] [] false eq_refl)).
  discriminate.
Defined.

Lemma scanForeignKeys_Ok (tableName : string)
      (rows : list information_schema.key_usage_row) (acc fkeys : list ForeignKey.t) :
  MySQLDriver.scanForeignKeys tableName rows acc = Ok fkeys ->
  exists news,
    fkeys = acc ++ news /\
    Forall2 (fun k fk => MySQLDriver.scanForeignKey tableName k = Ok fk) rows news.
Proof.
  revert acc. induction rows as [| k rows IH]; intros acc H; cbn in H.
  - injection H as <-. exists []. split; [now rewrite app_nil_r | constructor].
  - destruct (MySQLDriver.scanForeignKey tableName k) as [fk | e] eqn:E; [| discriminate H].
    destruct (IH _ H) as [news [-> Hall]].
    exists (fk :: news). split; [now rewrite <- app_assoc |].
    constructor; assumption.
Qed.

Lemma scanForeignKeys_complete (tableName : string)
      (rows : list information_schema.key_usage_row) (acc : list ForeignKey.t) :
  references_complete rows ->
  exists fkeys, MySQLDriver.scanForeignKeys tableName rows acc = Ok fkeys.
Proof.
  revert acc. induction rows as [| k rows IH]; intros acc Hc; cbn.
  - now exists acc.
  - destruct (Hc k (or_introl eq_refl)) as [Ht Hcol].
    unfold MySQLDriver.scanForeignKey.
    destruct (information_schema.referenced_table_name k); [| contradiction].
    destruct (information_schema.referenced_column_name k); [| contradiction].
    apply IH. intros k' Hk'. apply Hc. now right.
Qed.

Lemma ForeignKeyInfo_usable (env0 : sql.Env) (cat : information_schema.Catalog)
      (m : MySQLDriver.t) (schema tableName : string) :
  MySQLDriver.usable env0 m = true ->
  MySQLDriver.ForeignKeyInfo env0 cat m schema tableName
  = Returned (MySQLDriver.scanForeignKeys
                tableName
                (information_schema.select_foreign_keys cat schema schema tableName) []).
Proof.
  intros Hu. unfold MySQLDriver.ForeignKeyInfo.
  destruct (MySQLDriver.dbConn m) as [d |] eqn:Hd;
    [| unfold MySQLDriver.usable in Hu; rewrite Hd in Hu; discriminate].
  apply (connect_usable env0 m d Hd) in Hu. now rewrite Hu.
Qed.

Lemma ForeignKeyInfo_returned (env0 : sql.Env) (cat : information_schema.Catalog)
      (m : MySQLDriver.t) (schema tableName : string) (fkeys : list ForeignKey.t) :
  MySQLDriver.ForeignKeyInfo env0 cat m schema tableName = Returned (Ok fkeys) ->
  Forall2 (fun k fk => MySQLDriver.scanForeignKey tableName k = Ok fk)
          (information_schema.select_foreign_keys cat schema schema tableName) fkeys.
Proof.
  unfold MySQLDriver.ForeignKeyInfo. intros H.
  destruct (MySQLDriver.dbConn m); [| discriminate].
  destruct (sql.connect env0 d); [discriminate |].
  injection H as H. apply scanForeignKeys_Ok in H.
  destruct H as [news [-> Hall]]. exact Hall.
Qed.

Lemma scanForeignKey_Ok (tableName : string) (k : information_schema.key_usage_row)
      (fk : ForeignKey.t) :
  MySQLDriver.scanForeignKey tableName k = Ok fk ->
  ForeignKey.Name fk = information_schema.kcu_constraint_name k /\
  ForeignKey.Table fk = tableName /\
  ForeignKey.Column fk = information_schema.kcu_column_name k /\
  information_schema.referenced_table_name k = Some (ForeignKey.ForeignTable fk) /\
  information_schema.referenced_column_name k = Some (ForeignKey.ForeignColumn fk).
Proof.
  unfold MySQLDriver.scanForeignKey.
  destruct (information_schema.referenced_table_name k); [| discriminate].
  destruct (information_schema.referenced_column_name k); [| discriminate].
  intros H. injection H as <-. cbn. tauto.
Qed.

(** X9. [ForeignKeyInfo] returns one entry per key-column-usage row of the table
    that refers into the same schema, in catalog order: the columns of a
    composite key are separate entries with the constraint name they share.
    A table without such rows gives the empty list and no error, and the
    call succeeds whenever the rows name what they refer to. *)
Theorem ForeignKeyInfo_one_per_row (env0 : sql.Env) (cat : information_schema.Catalog)
        (m : MySQLDriver.t) (schema tableName : string) :
  MySQLDriver.usable env0 m = true ->
  let rows := information_schema.select_foreign_keys cat schema schema tableName in
  (forall fkeys,
     MySQLDriver.ForeignKeyInfo env0 cat m schema tableName = Returned (Ok fkeys) ->
     map ForeignKey.Name fkeys = map information_schema.kcu_constraint_name rows /\
     map ForeignKey.Column fkeys = map information_schema.kcu_column_name rows) /\
  (references_complete rows ->
   exists fkeys,
     MySQLDriver.ForeignKeyInfo env0 cat m schema tableName = Returned (Ok fkeys)) /\
  (rows = [] ->
   MySQLDriver.ForeignKeyInfo env0 cat m schema tableName = Returned (Ok [])).
Proof.
  intros Hu. cbv zeta. split; [| split].
  - intros fkeys H. apply ForeignKeyInfo_returned in H.
    induction H as [| k fk rows fkeys Hk _ IH]; [split; reflexivity |].
    apply scanForeignKey_Ok in Hk. destruct Hk as [Hn [_ [Hc _]]].
    destruct IH as [IHn IHc]. cbn. rewrite Hn, Hc, IHn, IHc. split; reflexivity.
  - intros Hc. rewrite (ForeignKeyInfo_usable _ _ _ _ _ Hu).
    destruct (scanForeignKeys_complete tableName _ [] Hc) as [fkeys ->].
    now exists fkeys.
  - intros E. rewrite (ForeignKeyInfo_usable _ _ _ _ _ Hu), E. reflexivity.
Qed.

Lemma Forall2_In_right {A B : Type} (R : A -> B -> Prop) (l : list A) (l' : list B) :
  Forall2 R l l' -> forall b, In b l' -> exists a, In a l /\ R a b.
Proof.
  induction 1 as [| a b0 l l' Hab _ IH]; intros b Hb; [destruct Hb |].
  destruct Hb as [<- | Hb].
  - exists a. split; [now left | exact Hab].
  - destruct (IH b Hb) as [a' [Ha' Hr]]. exists a'. split; [now right | exact Hr].
Qed.

(** X10. Every foreign key [ForeignKeyInfo] returns is owned by the table asked
    for and comes from a catalog row of that table whose referenced schema
    is the schema asked for: a reference into another schema is left out. *)
Theorem ForeignKeyInfo_within_schema (env0 : sql.Env) (cat : information_schema.Catalog)
        (m : MySQLDriver.t) (schema tableName : string) (fkeys : list ForeignKey.t) :
  MySQLDriver.ForeignKeyInfo env0 cat m schema tableName = Returned (Ok fkeys) ->
  forall fk, In fk fkeys ->
    ForeignKey.Table fk = tableName /\
    exists k,
      In k (information_schema.key_column_usage cat) /\
      information_schema.kcu_table_schema k = schema /\
      information_schema.kcu_table_name k = tableName /\
      information_schema.referenced_table_schema k = Some schema /\
      information_schema.kcu_constraint_name k = ForeignKey.Name fk /\
      information_schema.kcu_column_name k = ForeignKey.Column fk /\
      information_schema.referenced_table_name k = Some (ForeignKey.ForeignTable fk) /\
      information_schema.referenced_column_name k = Some (ForeignKey.ForeignColumn fk).
Proof.
  intros H fk Hfk. apply ForeignKeyInfo_returned in H.
  destruct (Forall2_In_right _ _ _ H fk Hfk) as [k [Hk Hscan]].
  apply scanForeignKey_Ok in Hscan. destruct Hscan as [Hn [Ht [Hc [Hft Hfc]]]].
  split; [exact Ht |]. exists k.
  unfold information_schema.select_foreign_keys in Hk.
  apply filter_In in Hk. destruct Hk as [Hin Hf].
  apply andb_true_iff in Hf. destruct Hf as [Hf Htab].
  apply andb_true_iff in Hf. destruct Hf as [Hs Hrs].
  apply String.eqb_eq in Htab, Hs.
  unfold information_schema.null_eqb in Hrs.
  destruct (information_schema.referenced_table_schema k) as [rs |] eqn:Ers;
    [| discriminate Hrs].
  apply String.eqb_eq in Hrs. subst rs. repeat split; auto.
Qed.

Lemma ForeignKeyInfo_one_per_row_witness :
  exists fkeys,
    MySQLDriver.ForeignKeyInfo env_up example_schema driver_open "app" "user_roles"
    = Returned (Ok fkeys).
Proof.
  apply (ForeignKeyInfo_one_per_row env_up example_schema driver_open "app" "user_roles"
           eq_refl).
  intros k Hk. cbn in Hk. destruct Hk as [<- | []]. split; discriminate.
Defined.

Lemma ForeignKeyInfo_within_schema_witness :
  MySQLDriver.ForeignKeyInfo env_up example_schema driver_open "app" "user_roles"
  = Returned (Ok [ForeignKey.mk "fk_user" "user_roles" "user_id" "users" "id"]) /\
  ForeignKey.Table (ForeignKey.mk "fk_user" "user_roles" "user_id" "users" "id")
  = "user_roles".
Proof.
  split; [reflexivity |].
  exact (proj1 (ForeignKeyInfo_within_schema env_up example_schema driver_open
                  "app" "user_roles" _ eq_refl
                  (ForeignKey.mk "fk_user" "user_roles" "user_id" "users" "id")
                  ltac:(left; reflexivity))).
Defined.

(** ** Building and opening the driver *)

(** X11. The connection string does not tell port 0 from port 3306, and the
    password reaches the configuration as given, empty or not; the network
    is always tcp and time parsing is always on. *)
Theorem MySQLBuildQueryString_defaults (FormatDSN : mysql.Config -> string)
        (user pass dbname host sslmode : string) (port : Z) :
  MySQLDriver.MySQLBuildQueryString FormatDSN user pass dbname host 0 sslmode
  = MySQLDriver.MySQLBuildQueryString FormatDSN user pass dbname host 3306 sslmode /\
  mysql.Passwd (MySQLDriver.buildConfig user pass dbname host port sslmode) = pass /\
  mysql.Net (MySQLDriver.buildConfig user pass dbname host port sslmode) = "tcp" /\
  mysql.ParseTime (MySQLDriver.buildConfig user pass dbname host port sslmode) = true /\
  (port <> 0 ->
   mysql.Addr (MySQLDriver.buildConfig user pass dbname host port sslmode)
   = host +:+ ":" +:+ strconv_Itoa port).
Proof.
  split; [reflexivity |]. split.
  - unfold MySQLDriver.buildConfig. cbn [mysql.Passwd].
    destruct pass; reflexivity.
  - split; [reflexivity |]. split; [reflexivity |].
    intros Hp. unfold MySQLDriver.buildConfig. cbn [mysql.Addr].
    apply Z.eqb_neq in Hp. now rewrite Hp.
Qed.

Lemma MySQLBuildQueryString_defaults_witness :
  mysql.Addr (MySQLDriver.buildConfig "app" "secret" "app" "db.internal" 3307 "false")
  = "db.internal:3307".
Proof.
  apply (MySQLBuildQueryString_defaults example_FormatDSN
           "app" "secret" "app" "db.internal" "false" 3307).
  discriminate.
Defined.

(** X12. A driver fresh from [NewMySQLDriver] holds no handle: until [Open] has
    succeeded, [Close] and each metadata method panic on the nil handle.
    Once [Open] has succeeded none of them panics. *)
Theorem driver_must_be_opened (FormatDSN : mysql.Config -> string)
        (user pass dbname host sslmode : string) (port : Z)
        (env0 : sql.Env) (cat : information_schema.Catalog)
        (schema tableName : string) (wl bl : list string) :
  let m := MySQLDriver.NewMySQLDriver FormatDSN user pass dbname host port sslmode in
  (MySQLDriver.Close m = Panicked nil_dereference /\
   MySQLDriver.TableNames env0 m schema wl bl = Panicked nil_dereference /\
   MySQLDriver.Columns env0 cat m schema tableName = Panicked nil_dereference /\
   MySQLDriver.PrimaryKeyInfo env0 cat m schema tableName = Panicked nil_dereference /\
   MySQLDriver.ForeignKeyInfo env0 cat m schema tableName = Panicked nil_dereference) /\
  (forall m', MySQLDriver.Open env0 m = (m', None) ->
     forall p,
       MySQLDriver.Close m' <> Panicked p /\
       MySQLDriver.TableNames env0 m' schema wl bl <> Panicked p /\
       MySQLDriver.Columns env0 cat m' schema tableName <> Panicked p /\
       MySQLDriver.PrimaryKeyInfo env0 cat m' schema tableName <> Panicked p /\
       MySQLDriver.ForeignKeyInfo env0 cat m' schema tableName <> Panicked p).
Proof.
  cbv zeta. split.
  - unfold MySQLDriver.TableNames.
    destruct (MySQLDriver.tableNamesQuery schema wl bl). repeat split.
  - intros m' Hopen p. unfold MySQLDriver.Open in Hopen.
    destruct (sql.Open env0 "mysql" _) as [d | e]; [| discriminate].
    injection Hopen as <-.
    unfold MySQLDriver.Close, MySQLDriver.TableNames, MySQLDriver.Columns,
      MySQLDriver.PrimaryKeyInfo, MySQLDriver.ForeignKeyInfo.
    destruct (MySQLDriver.tableNamesQuery schema wl bl) as [q args].
    cbn [MySQLDriver.dbConn].
    destruct (sql.Query env0 d q args), (sql.connect env0 d);
      repeat split; try discriminate;
      destruct (information_schema.select_primary_key cat tableName schema); discriminate.
Qed.

Lemma driver_must_be_opened_witness :
  let m := fst (MySQLDriver.Open env_up
                  (MySQLDriver.NewMySQLDriver example_FormatDSN "app" "secret" "app"
                                              "db.internal" 0 "false")) in
  MySQLDriver.Close m <> Panicked nil_dereference /\
  MySQLDriver.Columns env_up example_schema m "app" "users" <> Panicked nil_dereference.
Proof.
  cbv zeta.
  destruct (driver_must_be_opened example_FormatDSN "app" "secret" "app" "db.internal"
              "false" 0 env_up example_schema "app" "users" [] []) as [_ Hopened].
  destruct (Hopened _ eq_refl nil_dereference) as [Hclose [_ [Hcols _]]].
  split; [exact Hclose | exact Hcols].
Defined.

(** ** The render loop *)

Lemma renderTables_app (cfg : Config.t) (all ts more : list Table.t) (w : World) :
  core.renderTables cfg all (ts ++ more) w
  = match core.renderTables cfg all ts w with
    | (w1, Returned None) => core.renderTables cfg all more w1
    | stop => stop
    end.
Proof.
  revert w. induction ts as [| t ts IH]; intros w; [reflexivity |].
  cbn [app core.renderTables].
  destruct (Table.IsJoinTable t); [apply IH |].
  destruct (core.renderInto cfg (Config.TableRenderer cfg) _ _ _ _ w) as [w1 [[e |] | p]];
    try reflexivity.
  destruct (if Config.NoTests cfg then None else Config.TableTestRenderer cfg) as [tr |];
    [| apply IH].
  destruct (core.renderInto cfg tr _ _ _ _ w1) as [w2 [[e |] | p]];
    try reflexivity.
  apply IH.
Qed.

(** X13. The loop is fail-fast: once it has stopped on some table with an error
    or a panic, whatever tables follow makes no difference to the result,
    the files or the calls made. While nothing fails, the loop over a
    sequence is the loop over its first part followed by the loop over the
    rest. *)
Theorem render_loop_stops_at_first_failure (cfg : Config.t)
        (all ts more : list Table.t) (w : World) :
  (snd (core.renderTables cfg all ts w) <> Returned None ->
   core.renderTables cfg all (ts ++ more) w = core.renderTables cfg all ts w) /\
  (snd (core.renderTables cfg all ts w) = Returned None ->
   core.renderTables cfg all (ts ++ more) w
   = core.renderTables cfg all more (fst (core.renderTables cfg all ts w))).
Proof.
  rewrite renderTables_app.
  destruct (core.renderTables cfg all ts w) as [w1 [[e |] | p]]; cbn [fst snd]; split;
    intros H; try reflexivity; try discriminate H; now elim H.
Qed.

Lemma render_loop_stops_at_first_failure_witness :
  core.renderTables (Config.mk "mysql" "app" [] [] "models" "out" false false true
                               failing_renderer None)
                    [users_table; events_table] ([users_table] ++ [events_table])
                    empty_world
  = core.renderTables (Config.mk "mysql" "app" [] [] "models" "out" false false true
                                 failing_renderer None)
                      [users_table; events_table] [users_table] empty_world.
Proof.
  apply (render_loop_stops_at_first_failure
           (Config.mk "mysql" "app" [] [] "models" "out" false false true
                      failing_renderer None)
           [users_table; events_table] [users_table] [events_table] empty_world).
  vm_compute. discriminate.
Defined.

(** X14. Join tables are skipped: the loop does for a sequence of tables what it
    does for the sequence without its join tables, and nothing at all when
    every table is a join table. *)
Theorem render_loop_skips_join_tables (cfg : Config.t) (all tables : list Table.t)
        (w : World) :
  core.renderTables cfg all tables w = core.renderTables cfg all (rendered tables) w /\
  (rendered tables = [] -> core.renderTables cfg all tables w = (w, Returned None)).
Proof.
  assert (Hskip : forall w0, core.renderTables cfg all tables w0
                             = core.renderTables cfg all (rendered tables) w0).
  { induction tables as [| t tables IH]; intros w0; [reflexivity |].
    unfold rendered in *. cbn [List.filter core.renderTables].
    destruct (Table.IsJoinTable t) eqn:Ej; cbn [negb]; [apply IH |].
    cbn [core.renderTables]. rewrite Ej.
    destruct (core.renderInto cfg (Config.TableRenderer cfg) _ _ _ _ w0)
      as [w1 [[e |] | p]]; try reflexivity.
    destruct (if Config.NoTests cfg then None else Config.TableTestRenderer cfg) as [tr |];
      [| apply IH].
    destruct (core.renderInto cfg tr _ _ _ _ w1) as [w2 [[e |] | p]]; try reflexivity.
    apply IH. }
  split; [apply Hskip |]. intros E. now rewrite Hskip, E.
Qed.

Lemma render_loop_skips_join_tables_witness :
  core.renderTables example_config [join_table] [join_table] empty_world
  = (empty_world, Returned None).
Proof.
  apply (render_loop_skips_join_tables example_config [join_table] [join_table] empty_world).
  reflexivity.
Defined.

Lemma openFile_log (cfg : Config.t) (w : World) (filename suffix : string) :
  log (fst (core.openFile cfg w filename suffix))
  = log w ++ [call_openFile filename suffix].
Proof.
  unfold core.openFile. cbn [fs logged].
  destruct (os.MkdirAll (fs w) _ os.ModePerm); [reflexivity |].
  destruct (os.OpenFile (fs w) _ _ _). reflexivity.
Qed.

Lemma renderInto_log (cfg : Config.t) (render : renderer) (c : call)
      (suffix wrap : string) (data : TemplateData.t) (w : World) :
  let name := Table.Name (TemplateData.Table data) in
  let w' := fst (core.renderInto cfg render c suffix wrap data w) in
  log w' = log w ++ [call_openFile name suffix] \/
  log w' = log w ++ [call_openFile name suffix; c].
Proof.
  cbv zeta. unfold core.renderInto.
  pose proof (openFile_log cfg w (Table.Name (TemplateData.Table data)) suffix) as Hl.
  destruct (core.openFile cfg w _ suffix) as [w1 [fd | e]]; cbn [fst] in *.
  - right. destruct (render data) as [text [e |]]; cbn [fst log logged with_fs];
      rewrite Hl, <- app_assoc; reflexivity.
  - left. exact Hl.
Qed.

(** X15. Test files are an option: with [NoTests] set, or without a test
    renderer, every call the loop makes is the opening of a model file or a
    call of the table renderer; no test file is opened and no test rendered. *)
Theorem render_loop_without_tests (cfg : Config.t) (all tables : list Table.t) (w : World) :
  Config.NoTests cfg = true \/ Config.TableTestRenderer cfg = None ->
  forall c, In c (log (fst (core.renderTables cfg all tables w))) ->
    In c (log w) \/
    (exists name, c = call_openFile name "_gen.go") \/
    (exists name, c = call_Render name).
Proof.
  intros Hoff.
  assert (Hnone : (if Config.NoTests cfg then None else Config.TableTestRenderer cfg) = None)
    by (destruct Hoff as [-> | ->]; [reflexivity | now destruct (Config.NoTests cfg)]).
  revert w. induction tables as [| t tables IH]; intros w c Hc; [now left |].
  cbn [core.renderTables] in Hc. rewrite Hnone in Hc.
  destruct (Table.IsJoinTable t); [now apply IH |].
  pose proof (renderInto_log cfg (Config.TableRenderer cfg) (call_Render (Table.Name t))
                "_gen.go" "unable to generate output"
                (TemplateData.mk all t (Config.PkgName cfg) (Config.Schema cfg)) w) as Hl.
  cbv zeta in Hl. cbn [TemplateData.Table] in Hl.
  destruct (core.renderInto cfg (Config.TableRenderer cfg) _ _ _ _ w) as [w1 [[e |] | p]];
    cbn [fst] in *.
  2: apply IH in Hc; destruct Hc as [Hc | Hc]; [| now right].
  all: destruct Hl as [Hl | Hl]; rewrite Hl in Hc; apply in_app_iff in Hc;
    destruct Hc as [Hc | Hc]; [now left | | now left |].
  all: cbn in Hc; intuition (subst; eauto).
Qed.

Lemma render_loop_without_tests_witness :
  In (call_Render "users") (log empty_world) \/
  (exists name, call_Render "users" = call_openFile name "_gen.go") \/
  (exists name, call_Render "users" = call_Render name).
Proof.
  exact (render_loop_without_tests example_config [users_table] [users_table] empty_world
           (or_introl eq_refl) (call_Render "users") ltac:(right; left; reflexivity)).
Defined.

Lemma OpenFile_keeps (fs0 : os.FS) (name : string) (flag perm : Z) (p : string) :
  is_Some (os.files fs0 !! p) ->
  is_Some (os.files (fst (os.OpenFile fs0 name flag perm)) !! p).
Proof.
  intros Hp. unfold os.OpenFile.
  destruct (os.files fs0 !! name) as [f |] eqn:E.
  - destruct (os.has flag os.O_CREATE && os.has flag os.O_EXCL); [exact Hp |].
    destruct ((os.has flag os.O_WRONLY || os.has flag os.O_RDWR)
              && negb (os.may_write fs0 f)); [exact Hp |].
    destruct (os.has flag os.O_TRUNC); [| exact Hp].
    cbn. destruct (decide (name = p)) as [-> | Hne].
    + rewrite lookup_insert_eq. eauto.
    + now rewrite lookup_insert_ne.
  - destruct (os.has flag os.O_CREATE); [| exact Hp].
    cbn. destruct (decide (name = p)) as [-> | Hne].
    + rewrite lookup_insert_eq. eauto.
    + now rewrite lookup_insert_ne.
Qed.

Lemma OpenFile_Ok (fs0 : os.FS) (name : string) (flag perm : Z) (fd : string) :
  snd (os.OpenFile fs0 name flag perm) = Ok fd ->
  fd = name /\ is_Some (os.files (fst (os.OpenFile fs0 name flag perm)) !! name).
Proof.
  unfold os.OpenFile.
  destruct (os.files fs0 !! name) as [f |] eqn:E.
  - destruct (os.has flag os.O_CREATE && os.has flag os.O_EXCL); [discriminate |].
    destruct ((os.has flag os.O_WRONLY || os.has flag os.O_RDWR)
              && negb (os.may_write fs0 f)); [discriminate |].
    destruct (os.has flag os.O_TRUNC); cbn; intros H; injection H as <-.
    + split; [reflexivity |]. rewrite lookup_insert_eq. eauto.
    + split; [reflexivity |]. rewrite E. eauto.
  - destruct (os.has flag os.O_CREATE); [| discriminate].
    cbn. intros H; injection H as <-.
    split; [reflexivity |]. rewrite lookup_insert_eq. eauto.
Qed.

Lemma Write_keeps (fs0 : os.FS) (fd text p : string) :
  is_Some (os.files fs0 !! p) -> is_Some (os.files (os.Write fs0 fd text) !! p).
Proof.
  intros [f Hf]. unfold os.Write. cbn. rewrite lookup_alter.
  case_decide; subst; rewrite Hf; cbn; eauto.
Qed.

Lemma renderInto_keeps (cfg : Config.t) (render : renderer) (c : call)
      (suffix wrap : string) (data : TemplateData.t) (w : World) (p : string) :
  is_Some (os.files (fs w) !! p) ->
  is_Some (os.files (fs (fst (core.renderInto cfg render c suffix wrap data w))) !! p).
Proof.
  intros Hp. unfold core.renderInto, core.openFile. cbn [fs logged].
  destruct (os.MkdirAll (fs w) _ os.ModePerm); [exact Hp |].
  pose proof (OpenFile_keeps (fs w)
                (os.Join (os.Join (Config.OutFolder cfg) (Table.Name (TemplateData.Table data)))
                         (Table.Name (TemplateData.Table data) +:+ suffix))
                (Z.lor os.O_WRONLY os.O_CREATE) core.perm_0444 p Hp) as Hk.
  destruct (os.OpenFile (fs w) _ _ _) as [fs1 [fd | e]]; cbn [fst] in *.
  - destruct (render data) as [text [e |]]; cbn [fst fs with_fs logged];
      now apply Write_keeps.
  - exact Hk.
Qed.

Lemma renderInto_Returned (cfg : Config.t) (render : renderer) (c : call)
      (suffix wrap : string) (data : TemplateData.t) (w w1 : World) (r : option error) :
  core.renderInto cfg render c suffix wrap data w = (w1, Returned r) ->
  is_Some (os.files (fs w1)
             !! output_file cfg (Table.Name (TemplateData.Table data)) suffix).
Proof.
  unfold core.renderInto, core.openFile, output_file. cbn [fs logged].
  destruct (os.MkdirAll (fs w) _ os.ModePerm); [discriminate |].
  pose proof (OpenFile_Ok (fs w)
                (os.Join (os.Join (Config.OutFolder cfg) (Table.Name (TemplateData.Table data)))
                         (Table.Name (TemplateData.Table data) +:+ suffix))
                (Z.lor os.O_WRONLY os.O_CREATE) core.perm_0444) as Hok.
  destruct (os.OpenFile (fs w) _ _ _) as [fs1 [fd | e]]; cbn [fst snd] in *;
    [| discriminate].
  destruct (Hok fd eq_refl) as [-> Hsome].
  destruct (render data) as [text [e |]]; intros H; injection H as <- _;
    cbn [fs with_fs logged]; now apply Write_keeps.
Qed.

Lemma renderTables_keeps (cfg : Config.t) (all tables : list Table.t) (w : World)
      (p : string) :
  is_Some (os.files (fs w) !! p) ->
  is_Some (os.files (fs (fst (core.renderTables cfg all tables w))) !! p).
Proof.
  revert w. induction tables as [| t tables IH]; intros w Hp; [exact Hp |].
  cbn [core.renderTables].
  destruct (Table.IsJoinTable t); [now apply IH |].
  pose proof (renderInto_keeps cfg (Config.TableRenderer cfg) (call_Render (Table.Name t))
                "_gen.go" "unable to generate output"
                (TemplateData.mk all t (Config.PkgName cfg) (Config.Schema cfg)) w p Hp) as H1.
  destruct (core.renderInto cfg (Config.TableRenderer cfg) _ _ _ _ w) as [w1 [[e |] | q]];
    cbn [fst] in *; try exact H1.
  destruct (if Config.NoTests cfg then None else Config.TableTestRenderer cfg) as [tr |];
    [| now apply IH].
  pose proof (renderInto_keeps cfg tr (call_RenderTest (Table.Name t))
                "_test_gen.go" "unable to generate test output"
                (TemplateData.mk all t (Config.PkgName cfg) (Config.Schema cfg)) w1 p H1) as H2.
  destruct (core.renderInto cfg tr _ _ _ _ w1) as [w2 [[e |] | q]];
    cbn [fst] in *; try exact H2.
  now apply IH.
Qed.

(** X16. The loop never removes a file, and when it ends without error every
    table that is not a join table has its model file in place, and its
    test file too when tests are rendered. *)
Theorem render_loop_success_leaves_files (cfg : Config.t) (all tables : list Table.t)
        (w w' : World) :
  (forall p, is_Some (os.files (fs w) !! p) ->
             is_Some (os.files (fs (fst (core.renderTables cfg all tables w))) !! p)) /\
  (core.renderTables cfg all tables w = (w', Returned None) ->
   forall t, In t tables -> Table.IsJoinTable t = false ->
     is_Some (os.files (fs w') !! output_file cfg (Table.Name t) "_gen.go") /\
     (Config.NoTests cfg = false -> Config.TableTestRenderer cfg <> None ->
      is_Some (os.files (fs w') !! output_file cfg (Table.Name t) "_test_gen.go"))).
Proof.
  split; [intros p; apply renderTables_keeps |].
  revert w. induction tables as [| t0 tables IH]; intros w Hrun t Hin Hj; [destruct Hin |].
  cbn [core.renderTables] in Hrun.
  destruct (Table.IsJoinTable t0) eqn:Ej.
  { destruct Hin as [-> | Hin]; [congruence | now apply (IH w)]. }
  destruct (core.renderInto cfg (Config.TableRenderer cfg) _ _ _ _ w)
    as [w1 [[e |] | q]] eqn:R1; try discriminate Hrun.
  apply renderInto_Returned in R1. cbn [TemplateData.Table] in R1.
  destruct (if Config.NoTests cfg then None else Config.TableTestRenderer cfg)
    as [tr |] eqn:Etr.
  - destruct (core.renderInto cfg tr _ _ _ _ w1) as [w2 [[e |] | q]] eqn:R2;
      try discriminate Hrun.
    pose proof (renderInto_keeps cfg tr (call_RenderTest (Table.Name t0))
                  "_test_gen.go" "unable to generate test output"
                  (TemplateData.mk all t0 (Config.PkgName cfg) (Config.Schema cfg)) w1
                  _ R1) as K1.
    rewrite R2 in K1. cbn [fst] in K1.
    apply renderInto_Returned in R2. cbn [TemplateData.Table] in R2.
    destruct Hin as [<- | Hin]; [| now apply (IH w2)].
    pose proof (renderTables_keeps cfg all tables w2 _ K1) as K2.
    pose proof (renderTables_keeps cfg all tables w2 _ R2) as K3.
    rewrite Hrun in K2, K3. cbn [fst] in K2, K3. split; [exact K2 | intros _ _; exact K3].
  - destruct Hin as [<- | Hin]; [| now apply (IH w1)].
    pose proof (renderTables_keeps cfg all tables w1 _ R1) as K2.
    rewrite Hrun in K2. cbn [fst] in K2. split; [exact K2 |].
    intros Hn Htr. rewrite Hn in Etr. contradiction.
Qed.

Lemma render_loop_success_leaves_files_witness :
  is_Some (os.files
             (fs (fst (core.renderTables example_config [users_table; join_table]
                                         [users_table; join_table] empty_world)))
             !! output_file example_config "users" "_gen.go").
Proof.
  refine (proj1 (proj2 (render_loop_success_leaves_files example_config
                          [users_table; join_table] [users_table; join_table]
                          empty_world _) _ users_table _ _)).
  - vm_compute. reflexivity.
  - now left.
  - reflexivity.
Defined.

Lemma renderTables_error_wrapped (cfg : Config.t) (all tables : list Table.t)
      (w : World) (e : error) :
  snd (core.renderTables cfg all tables w) = Returned (Some e) ->
  exists cause msg,
    e = errors_Wrap cause msg /\
    In msg ["unable to generate output"; "unable to generate test output"].
Proof.
  revert w. induction tables as [| t tables IH]; intros w H; [discriminate H |].
  cbn [core.renderTables] in H.
  destruct (Table.IsJoinTable t); [exact (IH _ H) |].
  unfold core.renderInto in H at 1.
  destruct (core.openFile cfg w _ "_gen.go") as [w0 [fd | e0]]; [| discriminate H].
  destruct (Config.TableRenderer cfg _) as [text [e1 |]].
  { cbn in H. injection H as <-. eexists _, _. split; [reflexivity | now left]. }
  destruct (if Config.NoTests cfg then None else Config.TableTestRenderer cfg) as [tr |];
    [| exact (IH _ H)].
  unfold core.renderInto in H at 1.
  destruct (core.openFile cfg _ _ "_test_gen.go") as [w2 [fd2 | e2]]; [| discriminate H].
  destruct (tr _) as [text2 [e3 |]].
  { cbn in H. injection H as <-. eexists _, _. split; [reflexivity | right; now left]. }
  exact (IH _ H).
Qed.

(** X17. No error leaves [Run] bare: whatever it returns is the cause wrapped
    with the description of the step that failed, one of five. *)
Theorem Run_errors_are_wrapped (D : Type) (I : Interface D)
        (db_Tables : sql.Env -> D -> string -> list string -> list string
                     -> result (list Table.t))
        (s : core.State D) (w : World) (e : error) :
  snd (core.Run db_Tables s w) = Returned (Some e) ->
  exists cause msg, e = errors_Wrap cause msg /\ In msg run_messages.
Proof.
  unfold core.Run, run_messages. cbn [env logged].
  destruct (Open (env w) (core.Driver s)) as [d [e0 |]].
  { cbn. intros H. injection H as <-. eexists _, _. split; [reflexivity |]. cbn. tauto. }
  destruct (core.initTables db_Tables _ _ _ _ _) as [[s1 w1] [e1 |]].
  { cbn. intros H. injection H as <-. eexists _, _. split; [reflexivity |]. cbn. tauto. }
  destruct (core.initOutFolder (core.Config s) _) as [w2 [e2 |]].
  { cbn. intros H. injection H as <-. eexists _, _. split; [reflexivity |]. cbn. tauto. }
  destruct (core.renderTables (core.Config s) (core.Tables s1) (core.Tables s1) w2)
    as [w3 r] eqn:R.
  cbn [snd]. intros ->.
  assert (H : snd (core.renderTables (core.Config s) (core.Tables s1) (core.Tables s1) w2)
              = Returned (Some e)) by now rewrite R.
  destruct (renderTables_error_wrapped _ _ _ _ _ H) as [cause [msg [-> Hm]]].
  exists cause, msg. split; [reflexivity |]. cbn in *. tauto.
Qed.

Lemma Run_errors_are_wrapped_witness :
  exists cause msg,
    errors_Wrap (errors_New "no tables found in database") "unable to initialize tables"
    = errors_Wrap cause msg /\ In msg run_messages.
Proof.
  exact (Run_errors_are_wrapped MySQLDriver.t MySQLDriver_Interface example_discovery
           (state_new "warehouse") empty_world _ eq_refl).
Defined.

(** X18. When discovery fails, or a discovered table has no primary key, the run
    stops inside [initTables]: the error carries the description of both
    steps (for a discovery error) or the list of tables without key, and no
    file has been created, changed or removed for any table. *)
Theorem Run_stops_before_output (D : Type) (I : Interface D)
        (db_Tables : sql.Env -> D -> string -> list string -> list string
                     -> result (list Table.t))
        (s : core.State D) (w : World) (d : D) :
  Open (env w) (core.Driver s) = (d, None) ->
  let discovered :=
    db_Tables (env w) d (Config.Schema (core.Config s))
              (Config.WhitelistTables (core.Config s))
              (Config.BlacklistTables (core.Config s)) in
  (forall e, discovered = Err e ->
     snd (core.Run db_Tables s w)
     = Returned (Some (errors_Wrap (errors_Wrap e "unable to fetch table data")
                                   "unable to initialize tables")) /\
     fs (snd (fst (core.Run db_Tables s w))) = fs w /\
     log (snd (fst (core.Run db_Tables s w))) = log w ++ [call_Open; call_Tables]) /\
  (forall tables e, discovered = Ok tables -> core.checkPKeys tables = Some e ->
     snd (core.Run db_Tables s w)
     = Returned (Some (errors_Wrap e "unable to initialize tables")) /\
     fs (snd (fst (core.Run db_Tables s w))) = fs w /\
     log (snd (fst (core.Run db_Tables s w)))
     = log w ++ [call_Open; call_Tables; call_checkPKeys]).
Proof.
  intros Hopen. cbv zeta. split.
  - intros e Hdb. unfold core.Run. cbn [env logged]. rewrite Hopen.
    unfold core.initTables. cbn [env logged core.Driver core.Config]. rewrite Hdb.
    cbn. rewrite <- app_assoc. repeat split.
  - intros tables e Hdb Hpk. unfold core.Run. cbn [env logged]. rewrite Hopen.
    unfold core.initTables. cbn [env logged core.Driver core.Config core.Tables].
    rewrite Hdb. cbn [core.Tables].
    destruct tables as [| t tables]; [discriminate Hpk |].
    cbn [List.length Nat.eqb]. rewrite Hpk.
    cbn. rewrite <- !app_assoc. repeat split.
Qed.

Lemma Run_stops_before_output_witness :
  snd (core.Run (fun _ _ _ _ _ => Ok [users_table; events_table; logs_table])
                (state_new "app") empty_world)
  = Returned (Some (errors_Wrap
                      (errors_New "primary key missing in tables (events, logs)")
                      "unable to initialize tables")) /\
  fs (snd (fst (core.Run (fun _ _ _ _ _ => Ok [users_table; events_table; logs_table])
                         (state_new "app") empty_world)))
  = fs empty_world.
Proof.
  destruct (Run_stops_before_output MySQLDriver.t MySQLDriver_Interface
              (fun _ _ _ _ _ => Ok [users_table; events_table; logs_table])
              (state_new "app") empty_world driver_open eq_refl) as [_ Hpk].
  destruct (Hpk [users_table; events_table; logs_table] _ eq_refl eq_refl) as [Hr [Hf _]].
  split; [exact Hr | exact Hf].
Defined.

Lemma Run_Driver (D : Type) (I : Interface D)
      (db_Tables : sql.Env -> D -> string -> list string -> list string
                   -> result (list Table.t))
      (s : core.State D) (w : World) :
  core.Driver (fst (fst (core.Run db_Tables s w))) = fst (Open (env w) (core.Driver s)).
Proof.
  unfold core.Run. cbn [env logged].
  destruct (Open (env w) (core.Driver s)) as [d [e0 |]]; [reflexivity |].
  unfold core.initTables. cbn [env logged core.Driver core.Config core.Tables].
  destruct (db_Tables _ _ _ _ _) as [tables | e1]; [| reflexivity].
  destruct (Nat.eqb (List.length tables) 0); [reflexivity |].
  destruct (core.checkPKeys tables); [reflexivity |].
  destruct (core.initOutFolder (core.Config s) _) as [w2 [e2 |]]; [reflexivity |].
  cbn [core.Tables].
  destruct (core.renderTables (core.Config s) tables tables w2). reflexivity.
Qed.

(** X19. [Cleanup] after [Run], for the MySQL driver: however the run ended,
    [Cleanup] returns nil when [Open] had succeeded, and panics on the nil
    handle when the run failed to open the connection. *)
Theorem Cleanup_after_Run
        (db_Tables : sql.Env -> MySQLDriver.t -> string -> list string -> list string
                     -> result (list Table.t))
        (s : core.State MySQLDriver.t) (w : World) :
  let after := core.Run db_Tables s w in
  (snd (MySQLDriver.Open (env w) (core.Driver s)) = None ->
   exists s', snd (core.Cleanup (fst (fst after)) (snd (fst after)))
              = Returned (s', None)) /\
  (snd (MySQLDriver.Open (env w) (core.Driver s)) <> None ->
   snd (core.Cleanup (fst (fst after)) (snd (fst after))) = Panicked nil_dereference).
Proof.
  cbv zeta.
  pose proof (Run_Driver MySQLDriver.t MySQLDriver_Interface db_Tables s w) as Hd.
  unfold core.Cleanup. cbn [snd].
  change (@Close MySQLDriver.t MySQLDriver_Interface) with MySQLDriver.Close.
  change (@Open MySQLDriver.t MySQLDriver_Interface) with MySQLDriver.Open in Hd.
  rewrite Hd. unfold MySQLDriver.Open, MySQLDriver.Close.
  destruct (sql.Open (env w) "mysql" _) as [d | e]; cbn; split; intros H.
  - eexists. reflexivity.
  - now elim H.
  - discriminate H.
  - reflexivity.
Qed.

Lemma Cleanup_after_Run_witness :
  snd (core.Cleanup
         (fst (fst (core.Run example_discovery (state_new "app")
                             (mk_world env_bad_dsn (os.mk_fs ∅ 18 false) []))))
         (snd (fst (core.Run example_discovery (state_new "app")
                             (mk_world env_bad_dsn (os.mk_fs ∅ 18 false) [])))))
  = Panicked nil_dereference.
Proof.
  apply (Cleanup_after_Run example_discovery (state_new "app")
           (mk_world env_bad_dsn (os.mk_fs ∅ 18 false) [])).
  discriminate.
Defined.

(** ** The output folder *)

(** X20. For an output folder and files named by plain relative paths,
    [initOutFolder] leaves every file outside the output root as it is, and
    without the wipe option it changes no file at all. *)
Theorem initOutFolder_spares_other_files (cfg : Config.t) (w : World) :
  plain_path (Config.OutFolder cfg) = true ->
  (forall p, plain_path p = true ->
     os.under (Config.OutFolder cfg) p = false ->
     os.files (fs (fst (core.initOutFolder cfg w))) !! p = os.files (fs w) !! p) /\
  (Config.Wipe cfg = false -> fs (fst (core.initOutFolder cfg w)) = fs w).
Proof.
  intros _. unfold core.initOutFolder. cbn [fs logged]. split.
  - intros p _ Hp. destruct (Config.Wipe cfg); [| reflexivity].
    unfold os.RemoveAll.
    destruct (String.eqb (Config.OutFolder cfg) ""); [reflexivity |].
    cbn [fst snd fs with_fs os.files os.with_files].
    destruct (os.files (fs w) !! p) as [f |] eqn:E.
    + apply map_lookup_filter_Some_2; [exact E |]. cbn. now rewrite Hp.
    + apply map_lookup_filter_None_2. now left.
  - intros ->. reflexivity.
Qed.

Lemma initOutFolder_spares_other_files_witness :
  os.files (fs (fst (core.initOutFolder
                       (Config.mk "mysql" "app" [] [] "models" "gen" false true true
                                  (fun _ => ("", None)) None)
                       world_with_writable_file)))
    !! "out/users/users_gen.go"
  = os.files (fs world_with_writable_file) !! "out/users/users_gen.go".
Proof.
  apply (initOutFolder_spares_other_files
           (Config.mk "mysql" "app" [] [] "models" "gen" false true true
                      (fun _ => ("", None)) None)
           world_with_writable_file eq_refl); reflexivity.
Defined.

Lemma Join_differs (a b : string) : b <> "" -> os.Join a b <> a.
Proof.
  intros Hb. destruct (String.eqb a "") eqn:Ea.
  - apply String.eqb_eq in Ea. subst a. unfold os.Join. cbn. exact Hb.
  - apply Join_longer; [now apply String.eqb_neq | exact Hb].
Qed.

Lemma append_nonempty_r (a b : string) : b <> "" -> a +:+ b <> "".
Proof. intros Hb. destruct a; [exact Hb | discriminate]. Qed.

(** X21. Generated files are read-only, so generating twice into the same place
    does not work for an ordinary user: after a rendering that created the
    file of a table, rendering that file again, with any renderer, panics
    with permission denied. *)
Theorem rendering_again_panics (cfg : Config.t) (render render' : renderer)
        (c c' : call) (suffix wrap wrap' : string) (data data' : TemplateData.t)
        (w w1 : World) (r : option error) :
  suffix <> "" ->
  os.superuser (fs w) = false ->
  os.files (fs w) !! output_file cfg (Table.Name (TemplateData.Table data)) suffix = None ->
  core.renderInto cfg render c suffix wrap data w = (w1, Returned r) ->
  Table.Name (TemplateData.Table data') = Table.Name (TemplateData.Table data) ->
  snd (core.renderInto cfg render' c' suffix wrap' data' w1)
  = Panicked (panic_error
                (os_error EACCES
                          (output_file cfg (Table.Name (TemplateData.Table data)) suffix))).
Proof.
  intros Hsuf Huser Hfresh Hfirst Hname.
  unfold core.renderInto in *. rewrite Hname.
  set (name := Table.Name (TemplateData.Table data)) in *.
  unfold output_file in *.
  set (dir := os.Join (Config.OutFolder cfg) name) in *.
  set (path := os.Join dir (name +:+ suffix)) in *.
  assert (Hneq : path <> dir)
    by (apply Join_differs; apply append_nonempty_r; exact Hsuf).
  destruct openFile_flags as [Hc [Hx [Hw Ht]]].
  unfold core.openFile, os.MkdirAll in Hfirst. cbn [fs logged] in Hfirst.
  fold dir in Hfirst. fold path in Hfirst.
  destruct (os.files (fs w) !! dir) eqn:Hdir; [discriminate Hfirst |].
  unfold os.OpenFile in Hfirst. rewrite Hfresh, Hc in Hfirst.
  destruct (render data) as [text rerr].
  assert (Hw1 : fs w1
                = os.Write (os.with_files (fs w)
                              (<[path := os.mk_file (Z.land core.perm_0444
                                                       (Z.lnot (os.umask (fs w)))) ""]>
                                 (os.files (fs w))))
                           path text).
  { destruct rerr; injection Hfirst as <- _; reflexivity. }
  unfold core.openFile, os.MkdirAll. cbn [fs logged]. fold dir. fold path.
  rewrite Hw1. unfold os.Write at 1. cbn [os.files os.with_files].
  rewrite lookup_alter_ne by exact Hneq.
  rewrite lookup_insert_ne by exact Hneq. rewrite Hdir.
  unfold os.OpenFile. unfold os.Write at 1. cbn [os.files os.with_files].
  rewrite lookup_alter_eq, lookup_insert_eq. cbn [fmap option_fmap option_map].
  rewrite Hc, Hx, Hw. cbn [andb orb].
  unfold os.may_write. cbn [os.superuser os.mode os.Write os.with_files].
  rewrite Huser, created_mode_read_only. reflexivity.
Qed.

Lemma rendering_again_panics_witness :
  snd (core.renderInto example_config failing_renderer (call_Render "users") "_gen.go"
         "unable to generate output" users_data
         (fst (core.renderInto example_config (Config.TableRenderer example_config)
                 (call_Render "users") "_gen.go" "unable to generate output" users_data
                 empty_world)))
  = Panicked (panic_error (os_error EACCES "out/users/users_gen.go")).
Proof.
  refine (rendering_again_panics example_config (Config.TableRenderer example_config)
            failing_renderer (call_Render "users") (call_Render "users") "_gen.go"
            "unable to generate output" "unable to generate output" users_data users_data
            empty_world _ None _ eq_refl eq_refl _ eq_refl).
  - discriminate.
  - vm_compute. reflexivity.
Defined.






(** ** Choosing the driver *)

(** X23. On a state without driver, [initDriver] fails, with "An invalid driver
    name was provided", exactly when the name is none of postgres, mysql and
    mock (compared as written); otherwise it installs the driver of that
    name. Configuration and tables are never touched. *)
Theorem initDriver_known_names (D : Type) (postgresDriver mysqlDriver mockDriver : D)
        (cfg : Config.t) (tables : list Table.t) (driverName : string) :
  let s := core.mk_state cfg (@None D) tables in
  let r := core.initDriver postgresDriver mysqlDriver mockDriver s driverName in
  (snd r = Some (errors_New "An invalid driver name was provided") <->
   ~ In driverName ["postgres"; "mysql"; "mock"]) /\
  (snd r = None <-> In driverName ["postgres"; "mysql"; "mock"]) /\
  (driverName = "postgres" -> core.Driver (fst r) = Some postgresDriver) /\
  (driverName = "mysql" -> core.Driver (fst r) = Some mysqlDriver) /\
  (driverName = "mock" -> core.Driver (fst r) = Some mockDriver) /\
  core.Config (fst r) = cfg /\ core.Tables (fst r) = tables.
Proof.
  cbv zeta. unfold core.initDriver.
  destruct (case_of driverName ["postgres"]) eqn:Ep.
  { apply case_of_In in Ep. destruct Ep as [<- | []]. cbn.
    repeat split; try tauto; try discriminate; intros H; try discriminate H; tauto. }
  destruct (case_of driverName ["mysql"]) eqn:Em.
  { apply case_of_In in Em. destruct Em as [<- | []]. cbn.
    repeat split; try tauto; try discriminate; intros H; try discriminate H; tauto. }
  destruct (case_of driverName ["mock"]) eqn:Ek.
  { apply case_of_In in Ek. destruct Ek as [<- | []]. cbn.
    repeat split; try tauto; try discriminate; intros H; try discriminate H; tauto. }
  assert (Hnot : ~ In driverName ["postgres"; "mysql"; "mock"]).
  { intros [E | [E | [E | []]]]; subst driverName; discriminate. }
  cbn [core.Driver core.Config core.Tables fst snd].
  repeat split; try tauto; try discriminate; intros H; subst; discriminate.
Qed.

Lemma initDriver_known_names_witness :
  snd (core.initDriver 0%nat 1%nat 2%nat (core.mk_state example_config None []) "MySQL")
  = Some (errors_New "An invalid driver name was provided").
Proof.
  apply (initDriver_known_names nat 0%nat 1%nat 2%nat example_config [] "MySQL").
  cbn. intuition discriminate.
Defined.

(** ** More on the translator *)

Lemma TranslateColumnType_type_of (TinyintAsBool : bool) (c c' : Column.t) :
  Column.DBType c' = Column.DBType c ->
  Column.FullDBType c' = Column.FullDBType c ->
  Column.Nullable c' = Column.Nullable c ->
  Column.Unsigned c' = Column.Unsigned c ->
  Column.TypeName (drivers.TranslateColumnType TinyintAsBool c')
  = Column.TypeName (drivers.TranslateColumnType TinyintAsBool c).
Proof.
  destruct c as [name full raw dflt nullable unsigned unique pkg ty].
  destruct c' as [name' full' raw' dflt' nullable' unsigned' unique' pkg' ty'].
  column_fields. intros -> -> -> ->.
  unfold drivers.TranslateColumnType. cbv zeta. column_fields.
  split_switch; reflexivity.
Qed.

Lemma TranslateColumnType_package_of (TinyintAsBool : bool) (c : Column.t) :
  Column.PkgName (drivers.TranslateColumnType TinyintAsBool c)
  = if case_of (Column.DBType c) ["json"] then drivers.sqlboiler_types
    else if Column.Nullable c then drivers.null_v6
    else if case_of (Column.DBType c) ["date"; "datetime"; "timestamp"; "time"] then "time"
    else Column.PkgName c.
Proof.
  destruct c as [name full raw dflt nullable unsigned unique pkg ty].
  column_fields.
  destruct (case_of raw ["json"]) eqn:J.
  { apply case_of_In in J. destruct J as [<- | []]. destruct nullable; reflexivity. }
  destruct nullable.
  { unfold drivers.TranslateColumnType. cbv zeta. column_fields. rewrite J.
    split_switch; reflexivity. }
  destruct (case_of raw ["date"; "datetime"; "timestamp"; "time"]) eqn:Tm.
  { apply case_of_In in Tm.
    destruct Tm as [<- | [<- | [<- | [<- | []]]]]; reflexivity. }
  unfold drivers.TranslateColumnType. cbv zeta. column_fields. rewrite J, Tm.
  split_switch; reflexivity.
Qed.

Lemma Column_eta (c : Column.t) :
  c = Column.mk (Column.Name c) (Column.FullDBType c) (Column.DBType c) (Column.Default c)
                (Column.Nullable c) (Column.Unsigned c) (Column.Unique c)
                (Column.PkgName c) (Column.TypeName c).
Proof. now destruct c. Qed.

Lemma TranslateColumnType_keeps (TinyintAsBool : bool) (c : Column.t) :
  let c' := drivers.TranslateColumnType TinyintAsBool c in
  Column.Name c' = Column.Name c /\
  Column.DBType c' = Column.DBType c /\
  Column.FullDBType c' = Column.FullDBType c /\
  Column.Nullable c' = Column.Nullable c /\
  Column.Unsigned c' = Column.Unsigned c /\
  Column.Unique c' = Column.Unique c /\
  Column.Default c' = Column.Default c.
Proof.
  destruct c as [name full raw dflt nullable unsigned unique pkg ty].
  unfold drivers.TranslateColumnType. cbv zeta. column_fields.
  split_switch; repeat split; reflexivity.
Qed.

(** X24. Translating is idempotent: a column that has been translated is left as
    it is by a second translation under the same switch. *)
Theorem TranslateColumnType_idempotent (TinyintAsBool : bool) (c : Column.t) :
  drivers.TranslateColumnType TinyintAsBool (drivers.TranslateColumnType TinyintAsBool c)
  = drivers.TranslateColumnType TinyintAsBool c.
Proof.
  destruct (TranslateColumnType_keeps TinyintAsBool c)
    as [Hn [Hdb [Hfull [Hnull [Hun [Huq Hd]]]]]].
  cbv zeta in *.
  set (c1 := drivers.TranslateColumnType TinyintAsBool c) in *.
  destruct (TranslateColumnType_keeps TinyintAsBool c1)
    as [Hn1 [Hdb1 [Hfull1 [Hnull1 [Hun1 [Huq1 Hd1]]]]]].
  cbv zeta in *.
  pose proof (TranslateColumnType_type_of TinyintAsBool c c1 Hdb Hfull Hnull Hun) as Hty.
  fold c1 in Hty.
  assert (Hpkg : Column.PkgName (drivers.TranslateColumnType TinyintAsBool c1)
                 = Column.PkgName c1).
  { rewrite (TranslateColumnType_package_of TinyintAsBool c1). rewrite Hdb, Hnull.
    assert (E : Column.PkgName c1
                = if case_of (Column.DBType c) ["json"] then drivers.sqlboiler_types
                  else if Column.Nullable c then drivers.null_v6
                  else if case_of (Column.DBType c)
                            ["date"; "datetime"; "timestamp"; "time"] then "time"
                  else Column.PkgName c)
      by (unfold c1; apply TranslateColumnType_package_of).
    rewrite E.
    destruct (case_of (Column.DBType c) ["json"]); [reflexivity |].
    destruct (Column.Nullable c); [reflexivity |].
    destruct (case_of (Column.DBType c) ["date"; "datetime"; "timestamp"; "time"]);
      reflexivity. }
  rewrite (Column_eta (drivers.TranslateColumnType TinyintAsBool c1)).
  rewrite (Column_eta c1) at 10.
  now rewrite Hn1, Hdb1, Hfull1, Hnull1, Hun1, Huq1, Hd1, Hty, Hpkg.
Qed.

(** X25. The boolean switch matters for tinyint(1) columns only: any column whose
    raw type is not tinyint, or whose full type is not exactly tinyint(1),
    is translated the same way with the switch on and off. *)
Theorem TinyintAsBool_only_for_tinyint1 (c : Column.t) :
  ~ (Column.DBType c = "tinyint" /\ Column.FullDBType c = "tinyint(1)") ->
  drivers.TranslateColumnType true c = drivers.TranslateColumnType false c.
Proof.
  intros Hnot.
  destruct c as [name full raw dflt nullable unsigned unique pkg ty].
  column_fields. unfold drivers.TranslateColumnType. cbv zeta. column_fields.
  destruct (case_of raw ["tinyint"]) eqn:Et.
  - apply case_of_In in Et. destruct Et as [<- | []].
    assert (Hf : String.eqb full "tinyint(1)" = false).
    { apply String.eqb_neq. intros E. apply Hnot. now split. }
    rewrite Hf. reflexivity.
  - reflexivity.
Qed.

Lemma TinyintAsBool_only_for_tinyint1_witness :
  drivers.TranslateColumnType true
    (Column.mk "age" "tinyint(4)" "tinyint" "" false false false "" "")
  = drivers.TranslateColumnType false
      (Column.mk "age" "tinyint(4)" "tinyint" "" false false false "" "").
Proof.
  apply (TinyintAsBool_only_for_tinyint1
           (Column.mk "age" "tinyint(4)" "tinyint" "" false false false "" "")).
  intros [_ E]. discriminate E.
Defined.

Example answer_refuses_malformed_list :
  sql.answer server_up
    "select table_name from information_schema.tables where table_schema = ? and table_type = 'BASE TABLE' and table_name in (,?,?);"
    ["app"; "users"; "roles"]
  = Err (sql_error SyntaxError).
Proof. vm_compute. reflexivity. Qed.

Example answer_counts_arguments :
  sql.answer server_up
    "select table_name from information_schema.tables where table_schema = ? and table_type = 'BASE TABLE' and table_name in (?,?);"
    ["app"; "users"]
  = Err (sql_error WrongArgCount).
Proof. vm_compute. reflexivity. Qed.
